(** * Tablet: a fixed-capacity columnar row batch (cpp/src/common/tablet.cc)

    A shallow embedding of [storage::Tablet] and of the small part of the C++
    memory model its member functions rely on: heap blocks obtained from
    [malloc] / [new[]], released by [free] / [delete[]], and pointer fields
    that are either [NULL] or the address of a block.  Member functions are
    computations in a state-and-undefined-behaviour monad over the pair of
    the object and the heap. *)

From Stdlib Require Import ZArith Lia.
From stdpp Require Import base option list strings gmap.

Local Open Scope Z_scope.
Local Open Scope nat_scope.

(** ** Constants and plain data *)

(** The error codes of utils/errno_define.h that tablet.cc returns. *)
Inductive errno : Set :=
| E_OK
| E_INVALID_ARG
| E_OUT_OF_RANGE
| E_TYPE_NOT_MATCH.

#[global] Instance errno_eq_dec : EqDecision errno.
Proof. solve_decision. Defined.

(** The data types a measurement can be declared with. *)
Inductive TSDataType : Set :=
| BOOLEAN
| INT32
| INT64
| FLOAT
| DOUBLE
| TEXT.

#[global] Instance TSDataType_eq_dec : EqDecision TSDataType.
Proof. solve_decision. Defined.

(** A value handed to [add_value<T>]: the constructor is the template
    argument [T] of one of the five explicit instantiations, the payload is
    the argument [val].  Floating-point payloads are only stored, never
    computed with, and are kept as their IEEE bit pattern. *)
Inductive value : Set :=
| VBool (b : bool)
| VInt32 (z : Z)
| VInt64 (z : Z)
| VFloat (bits : Z)
| VDouble (bits : Z).

#[global] Instance value_eq_dec : EqDecision value.
Proof. solve_decision. Defined.

(** Modelled from the spec: [GetDataTypeFromTemplateType<T>()] is declared in
    a header that is not part of the sources at hand; it gives "the runtime
    type of the value", the tag of the template argument. *)
Definition GetDataTypeFromTemplateType (v : value) : TSDataType :=
  match v with
  | VBool _ => BOOLEAN
  | VInt32 _ => INT32
  | VInt64 _ => INT64
  | VFloat _ => FLOAT
  | VDouble _ => DOUBLE
  end.

Record MeasurementSchema : Set := {
  measurement_name_ : string;
  data_type_ : TSDataType
}.

(** Conversions between the integer types the code mixes: [size_t] loop
    counters are stored as [int] in [schema_map_] and read back as
    [uint32_t]; [max_row_num_] is an [int] cast to [uint32_t]. *)
Definition to_int32 (z : Z) : Z := ((z + 2 ^ 31) mod 2 ^ 32 - 2 ^ 31)%Z.
Definition to_uint32 (z : Z) : Z := (z mod 2 ^ 32)%Z.

(** ** Heap *)

Abbreviation loc := nat.

(** The bits of a [BitMap], one per row. *)
Abbreviation BitMap := (list bool).

(** Modelled from the spec: class [BitMap] is not part of the sources at
    hand.  A bitmap is "a parallel bit-vector of length capacity marking
    which rows currently hold a value", with "initial state: all bits clear";
    this is [BitMap::init(item_size, init_as_zero)]. *)
Definition BitMap_init (item_size : nat) (init_as_zero : bool) : BitMap :=
  replicate item_size (negb init_as_zero).

(** Modelled from the spec: [BitMap::set(index)] "sets the corresponding
    bitmap bit (mark non-null)"; a bit the bitmap does not have is outside
    its storage. *)
Definition BitMap_set (index : nat) (b : BitMap) : option BitMap :=
  if decide (index < length b) then Some (<[index := true]> b) else None.

(** A heap block.  Slots of a [malloc]ed array are indeterminate ([None])
    until they are assigned. *)
Inductive block : Type :=
| Int64Array (a : list (option Z))        (* int64_t[] *)
| PtrArray (a : list (option loc))        (* void*[] *)
| ValueArray (a : list (option value))    (* storage of one typed column *)
| BitMapArray (a : list BitMap).          (* BitMap[] *)

(** Modelled from the spec: [get_data_type_size] is declared in a header that
    is not part of the sources at hand.  A column is "a homogeneous array of
    capacity elements of that column's declared type", so the block of
    [get_data_type_size(data_type) * max_row_num] bytes is an array of
    [max_row_num] slots, whatever the type. *)
Definition column_block (data_type : TSDataType) (max_row_num : Z) : block :=
  ValueArray (replicate (Z.to_nat max_row_num) None).

(** The heap maps a location to its block; a released location stays in the
    heap as [None] and is never handed out again, so that a dangling pointer
    is always recognised. *)
Abbreviation heap := (list (option block)).

Record Tablet : Type := {
  max_row_num_ : Z;                           (* int *)
  schema_vec_ : list MeasurementSchema;       (* const std::vector<MeasurementSchema> * *)
  schema_map_ : gmap string Z;                (* std::map<std::string, int> *)
  timestamps_ : option loc;                   (* int64_t *, None is NULL *)
  value_matrix_ : option loc;                 (* void ** *)
  bitmaps_ : option loc                       (* BitMap * *)
}.

Record state : Type := {
  this : Tablet;
  mem : heap
}.

(** ** The monad of member functions

    [None] is undefined behaviour (an access outside a block, through [NULL]
    or through a dangling pointer, a double free); [Some (r, s)] is a return
    of [r] in state [s]. *)
Definition M (A : Type) : Type := state -> option (A * state).

Definition ret {A} (a : A) : M A := fun s => Some (a, s).

Definition bind {A B} (m : M A) (k : A -> M B) : M B :=
  fun s => match m s with
           | Some (a, s') => k a s'
           | None => None
           end.

Definition undefined {A} : M A := fun _ => None.

Declare Scope tablet_scope.
Delimit Scope tablet_scope with tablet.
Notation "x <- m ;; k" := (bind m (fun x => k))
  (at level 100, m at next level, right associativity) : tablet_scope.
Notation "m ;;; k" := (bind m (fun _ => k))
  (at level 100, right associativity) : tablet_scope.
Local Open Scope tablet_scope.

Definition get_this : M Tablet := fun s => Some (this s, s).

(** Assignment to the fields of [*this]. *)
Definition modify_this (f : Tablet -> Tablet) : M unit :=
  fun s => Some (tt, {| this := f (this s); mem := mem s |}).

(** The live block at a location. *)
Definition block_at (h : heap) (l : loc) : option block := mjoin (h !! l).

(** [malloc] and [new[]]: a fresh block at a fresh location.  Allocation is
    taken to succeed, as the code does: it never tests the pointer.  Sizes
    are element counts, which is the byte size of the code for a capacity of
    at least 0; a negative [max_row_num_], for which the byte size of the
    code wraps around, is outside what the heap describes. *)
Definition malloc (b : block) : M loc :=
  fun s => Some (length (mem s), {| this := this s; mem := mem s ++ [Some b] |}).

(** [free] and [delete[]] of a non-null pointer. *)
Definition free (l : loc) : M unit :=
  fun s => match block_at (mem s) l with
           | Some _ => Some (tt, {| this := this s; mem := <[l := None]> (mem s) |})
           | None => None
           end.

(** Dereference of a pointer field. *)
Definition deref (p : option loc) : M (loc * block) :=
  fun s => match p with
           | Some l => match block_at (mem s) l with
                       | Some b => Some ((l, b), s)
                       | None => None
                       end
           | None => None
           end.

Definition store (l : loc) (b : block) : M unit :=
  fun s => Some (tt, {| this := this s; mem := <[l := Some b]> (mem s) |}).

(** [for (size_t c = start; c < start + n; c++) body], where the body either
    falls through ([None]) or returns from the enclosing function. *)
Fixpoint for_range {A} (n : nat) (c : nat) (body : nat -> M (option A)) : M (option A) :=
  match n with
  | O => ret None
  | S n' => r <- body c ;;
            match r with
            | Some a => ret (Some a)
            | None => for_range n' (S c) body
            end
  end.

(** [schema_vec_->at(c)]: throws outside the vector. *)
Definition schema_at (c : nat) : M MeasurementSchema :=
  t <- get_this ;;
  match schema_vec_ t !! c with
  | Some sch => ret sch
  | None => undefined
  end.

(** [std::map::insert]: an existing key is kept and reported. *)
Definition map_insert (k : string) (v : Z) (m : gmap string Z) : gmap string Z * bool :=
  match m !! k with
  | Some _ => (m, false)
  | None => (<[k := v]> m, true)
  end.

Definition with_timestamps_ (p : option loc) (t : Tablet) : Tablet :=
  {| max_row_num_ := max_row_num_ t; schema_vec_ := schema_vec_ t;
     schema_map_ := schema_map_ t; timestamps_ := p;
     value_matrix_ := value_matrix_ t; bitmaps_ := bitmaps_ t |}.

Definition with_schema_map_ (m : gmap string Z) (t : Tablet) : Tablet :=
  {| max_row_num_ := max_row_num_ t; schema_vec_ := schema_vec_ t;
     schema_map_ := m; timestamps_ := timestamps_ t;
     value_matrix_ := value_matrix_ t; bitmaps_ := bitmaps_ t |}.

Definition with_value_matrix_ (p : option loc) (t : Tablet) : Tablet :=
  {| max_row_num_ := max_row_num_ t; schema_vec_ := schema_vec_ t;
     schema_map_ := schema_map_ t; timestamps_ := timestamps_ t;
     value_matrix_ := p; bitmaps_ := bitmaps_ t |}.

Definition with_bitmaps_ (p : option loc) (t : Tablet) : Tablet :=
  {| max_row_num_ := max_row_num_ t; schema_vec_ := schema_vec_ t;
     schema_map_ := schema_map_ t; timestamps_ := timestamps_ t;
     value_matrix_ := value_matrix_ t; bitmaps_ := p |}.

(** ** Member functions *)

(** Modelled from the spec: the macro [ASSERT] comes from a header that is
    not part of the sources at hand.  Every operation "either completes or
    returns an error immediately", so the assertion compiles to nothing and
    the statement after [ASSERT(false)] is reached. *)
Definition ASSERT (expr : bool) : M unit := ret tt.

(** Modelled from the spec: the macros [LIKELY] and [UNLIKELY] come from the
    same header; they are branch-prediction hints and give the condition
    back as it is. *)
Definition LIKELY (x : bool) : bool := x.

Definition UNLIKELY (x : bool) : bool := x.

(** The first loop of [Tablet::init]: names to column indices. *)
Definition init_insert (c : nat) : M (option errno) :=
  sch <- schema_at c ;;
  t <- get_this ;;
  let ins_res := map_insert (measurement_name_ sch) (to_int32 (Z.of_nat c)) (schema_map_ t) in
  modify_this (with_schema_map_ (fst ins_res)) ;;;
  if negb (snd ins_res)
  then ASSERT false ;;; ret (Some E_INVALID_ARG)  (* maybe dup measurement_name *)
  else ret None.

(** The second loop: [value_matrix_[c] =
    malloc(get_data_type_size(schema.data_type_) * max_row_num_)]. *)
Definition init_column (c : nat) : M (option errno) :=
  sch <- schema_at c ;;
  t <- get_this ;;
  pc <- malloc (column_block (data_type_ sch) (max_row_num_ t)) ;;
  vm <- deref (value_matrix_ t) ;;
  match vm with
  | (l, PtrArray a) =>
      if decide (c < length a) then store l (PtrArray (<[c := Some pc]> a)) ;;; ret None
      else undefined
  | _ => undefined
  end.

(** The third loop: [bitmaps_[c].init(max_row_num_, true)]. *)
Definition init_bitmap (c : nat) : M (option errno) :=
  t <- get_this ;;
  bm <- deref (bitmaps_ t) ;;
  match bm with
  | (l, BitMapArray a) =>
      if decide (c < length a)
      then store l (BitMapArray (<[c := BitMap_init (Z.to_nat (max_row_num_ t)) true]> a)) ;;;
           ret None
      else undefined
  | _ => undefined
  end.

(** [int Tablet::init()]. *)
Definition init : M errno :=
  t <- get_this ;;
  ASSERT (bool_decide (timestamps_ t = None)) ;;;
  p <- malloc (Int64Array (replicate (Z.to_nat (max_row_num_ t)) None)) ;;
  modify_this (with_timestamps_ (Some p)) ;;;
  let schema_count := length (schema_vec_ t) in
  r <- for_range schema_count 0 init_insert ;;
  match r with
  | Some e => ret e
  | None =>
      t' <- get_this ;;
      ASSERT (bool_decide (size (schema_map_ t') = schema_count)) ;;;
      vm <- malloc (PtrArray (replicate schema_count None)) ;;
      modify_this (with_value_matrix_ (Some vm)) ;;;
      for_range schema_count 0 init_column ;;;
      bm <- malloc (BitMapArray (replicate schema_count [])) ;;
      modify_this (with_bitmaps_ (Some bm)) ;;;
      for_range schema_count 0 init_bitmap ;;;
      ret E_OK
  end.

(** The loop of [Tablet::destroy]: [free(value_matrix_[c])]. *)
Definition destroy_column (c : nat) : M (option unit) :=
  t <- get_this ;;
  vm <- deref (value_matrix_ t) ;;
  match vm with
  | (_, PtrArray a) =>
      match a !! c with
      | Some (Some pc) => free pc ;;; ret None
      | _ => undefined
      end
  | _ => undefined
  end.

(** [void Tablet::destroy()]. *)
Definition destroy : M unit :=
  t <- get_this ;;
  match timestamps_ t with
  | Some p => free p ;;; modify_this (with_timestamps_ None)
  | None => ret tt
  end ;;;
  t <- get_this ;;
  match value_matrix_ t with
  | Some vm =>
      for_range (length (schema_vec_ t)) 0 destroy_column ;;;
      free vm ;;;
      modify_this (with_value_matrix_ None)
  | None => ret tt
  end ;;;
  t <- get_this ;;
  match bitmaps_ t with
  | Some bm => free bm
  | None => ret tt
  end.

(** [int Tablet::add_timestamp(uint32_t row_index, int64_t timestamp)]. *)
Definition add_timestamp (row_index : nat) (timestamp : Z) : M errno :=
  t <- get_this ;;
  ASSERT (bool_decide (timestamps_ t <> None)) ;;;
  if UNLIKELY (bool_decide (to_uint32 (max_row_num_ t) <= Z.of_nat row_index)%Z)
  then ASSERT false ;;; ret E_OUT_OF_RANGE
  else
    ts <- deref (timestamps_ t) ;;
    match ts with
    | (l, Int64Array a) =>
        if decide (row_index < length a)
        then store l (Int64Array (<[row_index := Some timestamp]> a)) ;;; ret E_OK
        else undefined
    | _ => undefined
    end.

(** [column_values[row_index] = val] on [value_matrix_[schema_index]]. *)
Definition store_value (row_index schema_index : nat) (val : value) : M unit :=
  t <- get_this ;;
  vm <- deref (value_matrix_ t) ;;
  match vm with
  | (_, PtrArray ptrs) =>
      match ptrs !! schema_index with
      | Some pc =>
          col <- deref pc ;;
          match col with
          | (l, ValueArray a) =>
              if decide (row_index < length a)
              then store l (ValueArray (<[row_index := Some val]> a))
              else undefined
          | _ => undefined
          end
      | None => undefined
      end
  | _ => undefined
  end.

(** [bitmaps_[schema_index].set(row_index)]. *)
Definition set_bit (row_index schema_index : nat) : M unit :=
  t <- get_this ;;
  bm <- deref (bitmaps_ t) ;;
  match bm with
  | (l, BitMapArray bs) =>
      match bs !! schema_index with
      | Some b =>
          match BitMap_set row_index b with
          | Some b' => store l (BitMapArray (<[schema_index := b']> bs))
          | None => undefined
          end
      | None => undefined
      end
  | _ => undefined
  end.

(** [template <typename T> int Tablet::add_value(uint32_t row_index,
    uint32_t schema_index, T val)]. *)
Definition add_value (row_index schema_index : nat) (val : value) : M errno :=
  t <- get_this ;;
  if LIKELY (bool_decide (length (schema_vec_ t) <= schema_index))
  then ASSERT false ;;; ret E_OUT_OF_RANGE
  else
    sch <- schema_at schema_index ;;
    if LIKELY (bool_decide (GetDataTypeFromTemplateType val <> data_type_ sch))
    then ret E_TYPE_NOT_MATCH
    else
      store_value row_index schema_index val ;;;
      set_bit row_index schema_index ;;;
      ret E_OK.

(** [template <typename T> int Tablet::add_value(uint32_t row_index,
    const std::string &measurement_name, T val)]. *)
Definition add_value_by_name (row_index : nat) (measurement_name : string) (val : value)
  : M errno :=
  t <- get_this ;;
  let find_iter := schema_map_ t !! measurement_name in
  if LIKELY (bool_decide (find_iter = None))
  then ASSERT false ;;; ret E_INVALID_ARG
  else
    match find_iter with
    | Some second => add_value row_index (Z.to_nat (to_uint32 second)) val
    | None => undefined
    end.

(** Modelled from the spec: the constructor is declared in tablet.h, which is
    not part of the sources at hand.  A tablet is built "from a schema and a
    row capacity"; [init] asserts that [timestamps_] is [NULL] and [destroy]
    tests the three pointers against [NULL], so a new tablet has them null
    and an empty [schema_map_]. *)
Definition new_Tablet (schema_vec : list MeasurementSchema) (max_rows : Z) : Tablet :=
  {| max_row_num_ := max_rows; schema_vec_ := schema_vec; schema_map_ := ∅;
     timestamps_ := None; value_matrix_ := None; bitmaps_ := None |}.

(** ** Observations *)

(** The timestamp slot of a row. *)
Definition timestamp_of (s : state) (row : nat) : option Z :=
  p ← timestamps_ (this s);
  b ← block_at (mem s) p;
  match b with Int64Array a => mjoin (a !! row) | _ => None end.

(** The array of column [col]. *)
Definition column_of (s : state) (col : nat) : option (list (option value)) :=
  vm ← value_matrix_ (this s);
  b ← block_at (mem s) vm;
  match b with
  | PtrArray ptrs =>
      pc ← mjoin (ptrs !! col);
      b' ← block_at (mem s) pc;
      match b' with ValueArray a => Some a | _ => None end
  | _ => None
  end.

(** The cell of a row in a column. *)
Definition cell_of (s : state) (row col : nat) : option value :=
  a ← column_of s col; mjoin (a !! row).

(** The bitmap of column [col]. *)
Definition bitmap_of (s : state) (col : nat) : option BitMap :=
  bm ← bitmaps_ (this s);
  b ← block_at (mem s) bm;
  match b with BitMapArray bs => bs !! col | _ => None end.

(** [bitmaps_[col].test(row)]: whether the cell is marked non-null. *)
Definition bit_of (s : state) (row col : nat) : option bool :=
  b ← bitmap_of s col; b !! row.

(** The timestamp array. *)
Definition timestamps_of (s : state) : option (list (option Z)) :=
  p ← timestamps_ (this s);
  b ← block_at (mem s) p;
  match b with Int64Array a => Some a | _ => None end.

(** Number of live blocks of the heap. *)
Definition live_blocks (h : heap) : nat := length (filter is_Some h).

(** ** A running example: capacity 2, schema [t1 : INT64] *)

Definition schema_t1 : list MeasurementSchema :=
  [ {| measurement_name_ := "t1"; data_type_ := INT64 |} ].

Definition fresh_t1 : state := {| this := new_Tablet schema_t1 2; mem := [] |}.

(** ** Well-formed tablets *)

(** [max_row_num_] as a number of slots. *)
Definition capacity (s : state) : nat := Z.to_nat (max_row_num_ (this s)).

(** [schema_vec_->size()]. *)
Definition column_count (s : state) : nat := length (schema_vec_ (this s)).

(** The measurement names of a schema, in schema order. *)
Definition names (l : list MeasurementSchema) : list string := measurement_name_ <$> l.

(** The state an initialised tablet is in, and stays in under writes. *)
Record tablet_ok (s : state) : Prop := {
  ok_rows : (0 <= max_row_num_ (this s) < 2 ^ 31)%Z;
  ok_count : (Z.of_nat (column_count s) < 2 ^ 31)%Z;
  ok_names : NoDup (names (schema_vec_ (this s)));
  ok_map : forall name z,
    schema_map_ (this s) !! name = Some z <->
    exists c sch, schema_vec_ (this s) !! c = Some sch /\
                  measurement_name_ sch = name /\ z = Z.of_nat c;
  ok_timestamps : exists p a,
    timestamps_ (this s) = Some p /\
    block_at (mem s) p = Some (Int64Array a) /\ length a = capacity s;
  ok_matrix : exists vm ptrs,
    value_matrix_ (this s) = Some vm /\
    block_at (mem s) vm = Some (PtrArray ptrs) /\
    length ptrs = column_count s /\ NoDup ptrs /\
    forall c, c < column_count s ->
      exists pc a, ptrs !! c = Some (Some pc) /\
                   block_at (mem s) pc = Some (ValueArray a) /\ length a = capacity s;
  ok_bitmaps : exists bm bs,
    bitmaps_ (this s) = Some bm /\
    block_at (mem s) bm = Some (BitMapArray bs) /\
    length bs = column_count s /\
    Forall (fun b : BitMap => length b = capacity s) bs
}.

(** What the first loop has put into [schema_map_] before iteration [c]. *)
Definition names_upto (l : list MeasurementSchema) (c : nat) (m : gmap string Z) : Prop :=
  forall name z,
    m !! name = Some z <->
    exists i sch, i < c /\ l !! i = Some sch /\
                  measurement_name_ sch = name /\ z = to_int32 (Z.of_nat i).

(** A column array as [malloc] returns it. *)
Definition empty_column (t : Tablet) : option block :=
  Some (ValueArray (replicate (Z.to_nat (max_row_num_ t)) None)).

(** The state while the second loop of [init] runs: the pointer array sits
    right after [h1], followed by the columns allocated so far. *)
Definition columns_state (t : Tablet) (h1 : heap) (c : nat) : state :=
  {| this := t;
     mem := h1 ++ Some (PtrArray ((Some <$> seq (S (length h1)) c)
                                  ++ replicate (length (schema_vec_ t) - c) None))
               :: replicate c (empty_column t) |}.

(** The state while the third loop of [init] runs: the bitmap array is the
    last block. *)
Definition bitmaps_state (t : Tablet) (h2 : heap) (c : nat) : state :=
  {| this := t;
     mem := h2 ++ [Some (BitMapArray
                           (replicate c (BitMap_init (Z.to_nat (max_row_num_ t)) true)
                            ++ replicate (length (schema_vec_ t) - c) []))] |}.

(** The heap a successful [init] builds on top of [h]: the timestamp array,
    the pointer array, one array per column, the bitmap array. *)
Definition init_heap (schema_vec : list MeasurementSchema) (max_rows : Z) (h : heap) : heap :=
  let n := length schema_vec in
  let cap := Z.to_nat max_rows in
  h ++ [Some (Int64Array (replicate cap None));
        Some (PtrArray (Some <$> seq (length h + 2) n))]
    ++ replicate n (Some (ValueArray (replicate cap None)))
    ++ [Some (BitMapArray (replicate n (replicate cap false)))].

(** The fields of the tablet after a successful [init] on top of [h]. *)
Definition init_tablet (schema_vec : list MeasurementSchema) (max_rows : Z) (h : heap)
    (m : gmap string Z) : Tablet :=
  {| max_row_num_ := max_rows; schema_vec_ := schema_vec; schema_map_ := m;
     timestamps_ := Some (length h);
     value_matrix_ := Some (length h + 1);
     bitmaps_ := Some (length h + 2 + length schema_vec) |}.

(** Two blocks of one kind and one size; pointer arrays are compared by
    content, since the layout hangs on them. *)
Definition same_shape (b b' : block) : Prop :=
  match b, b' with
  | Int64Array a, Int64Array a' => length a = length a'
  | PtrArray a, PtrArray a' => a = a'
  | ValueArray a, ValueArray a' => length a = length a'
  | BitMapArray a, BitMapArray a' => length <$> a = length <$> a'
  | _, _ => False
  end.

(** Every live block of [h] is live in [h'] with the same shape. *)
Definition heap_same_shape (h h' : heap) : Prop :=
  forall p bp, block_at h p = Some bp ->
               exists bp', block_at h' p = Some bp' /\ same_shape bp bp'.

(** The state after a write of [val] into cell ([row], [col]). *)
Definition written (s : state) (pc bm : loc) (a : list (option value)) (bs : list BitMap)
    (b : BitMap) (row col : nat) (val : value) : state :=
  {| this := this s;
     mem := <[bm := Some (BitMapArray (<[col := <[row := true]> b]> bs))]>
              (<[pc := Some (ValueArray (<[row := Some val]> a))]> (mem s)) |}.

(** The tablet of the scenario right after [init]. *)
Definition tablet_t1 : state :=
  {| this := init_tablet schema_t1 2 [] {[ "t1" := 0%Z ]};
     mem := init_heap schema_t1 2 [] |}.

(** A schema that declares the name t1 twice. *)
Definition schema_dup : list MeasurementSchema :=
  [ {| measurement_name_ := "t1"; data_type_ := INT64 |};
    {| measurement_name_ := "t1"; data_type_ := INT64 |} ].

(** A new tablet over that schema, capacity 2, on an empty heap. *)
Definition fresh_dup : state := {| this := new_Tablet schema_dup 2; mem := [] |}.

(** The blocks the tablet points to: the timestamp array, the pointer array,
    the bitmap array, and the column arrays the pointer array holds. *)
Definition owns (s : state) (l : loc) : Prop :=
  timestamps_ (this s) = Some l \/ value_matrix_ (this s) = Some l \/
  bitmaps_ (this s) = Some l \/
  exists vm ptrs c,
    value_matrix_ (this s) = Some vm /\ block_at (mem s) vm = Some (PtrArray ptrs) /\
    ptrs !! c = Some (Some l).

(** Every cell whose validity bit is set holds a value of the declared type
    of its column. *)
Definition cells_typed (s : state) : Prop :=
  forall r c,
    bit_of s r c = Some true ->
    exists v sch, cell_of s r c = Some v /\ schema_vec_ (this s) !! c = Some sch /\
                  GetDataTypeFromTemplateType v = data_type_ sch.

(** A schema with one column of a type that [add_value] is not instantiated
    for, and its tablet of capacity 2 right after [init]. *)
Definition schema_text : list MeasurementSchema :=
  [ {| measurement_name_ := "s1"; data_type_ := TEXT |} ].

Definition tablet_text : state :=
  {| this := init_tablet schema_text 2 [] {[ "s1" := 0%Z ]};
     mem := init_heap schema_text 2 [] |}.

(** The scenario's tablet after 42 has been written to cell (0, t1). *)
Definition tablet_t1_42 : state :=
  written tablet_t1 2 3 [None; None] [[false; false]] [false; false] 0 0 (VInt64 42).

(** * Lemmas *)

(** ** The macros *)

Lemma ASSERT_bind {A} (expr : bool) (k : M A) s : (ASSERT expr ;;; k) s = k s.
Proof. reflexivity. Qed.

(** ** The heap *)

Lemma block_at_app_l (h1 h2 : heap) l :
  l < length h1 -> block_at (h1 ++ h2) l = block_at h1 l.
Proof. intros Hl. unfold block_at. by rewrite lookup_app_l. Qed.

Lemma block_at_middle (h1 h2 : heap) b :
  block_at (h1 ++ b :: h2) (length h1) = b.
Proof. unfold block_at. by rewrite list_lookup_middle. Qed.

Lemma block_at_lt (h : heap) l b : block_at h l = Some b -> l < length h.
Proof.
  unfold block_at. intros Hb. apply lookup_lt_is_Some.
  destruct (h !! l) as [o |]; [by exists o | discriminate].
Qed.

Lemma block_at_insert_eq (h : heap) l b :
  l < length h -> block_at (<[l := b]> h) l = b.
Proof. intros Hl. unfold block_at. by rewrite list_lookup_insert_eq. Qed.

Lemma block_at_insert_ne (h : heap) l l' b :
  l <> l' -> block_at (<[l := b]> h) l' = block_at h l'.
Proof. intros Hl. unfold block_at. by rewrite list_lookup_insert_ne. Qed.

Lemma insert_middle (h1 h2 : heap) b b' :
  <[length h1 := b']> (h1 ++ b :: h2) = h1 ++ b' :: h2.
Proof.
  rewrite insert_app_r_alt by lia. by rewrite Nat.sub_diag.
Qed.

(** ** The loops of [init] *)

Lemma names_upto_dup l c m sch z :
  names_upto l c m -> l !! c = Some sch -> m !! measurement_name_ sch = Some z ->
  ~ NoDup (names l).
Proof.
  intros Hm Hc Hz Hnd. apply Hm in Hz as (i & sch' & Hi & Hl & Hn & _).
  assert (i = c); [| lia].
  eapply (NoDup_lookup (names l)); [done | |]; unfold names; rewrite list_lookup_fmap.
  - rewrite Hl. simpl. by rewrite Hn.
  - by rewrite Hc.
Qed.

Lemma names_upto_step l c m sch :
  names_upto l c m -> l !! c = Some sch -> m !! measurement_name_ sch = None ->
  names_upto l (S c) (<[measurement_name_ sch := to_int32 (Z.of_nat c)]> m).
Proof.
  intros Hm Hc Hnone name z. rewrite lookup_insert. case_decide as Hn; split.
  - intros [= <-]. exists c, sch. eauto with lia.
  - intros (i & sch' & Hi & Hl & Hn' & ->).
    destruct (decide (i = c)) as [-> | Hic]; [done |].
    assert (m !! name = Some (to_int32 (Z.of_nat i))) as Hin.
    { apply Hm. exists i, sch'. eauto with lia. }
    congruence.
  - intros Hz. apply Hm in Hz as (i & sch' & Hi & Hl & Hn' & ->).
    exists i, sch'. eauto with lia.
  - intros (i & sch' & Hi & Hl & Hn' & ->). apply Hm.
    destruct (decide (i = c)) as [-> | Hic]; [congruence |].
    exists i, sch'. eauto with lia.
Qed.

Lemma names_upto_fresh l c m sch :
  names_upto l c m -> m !! measurement_name_ sch = None ->
  measurement_name_ sch ∉ names (take c l).
Proof.
  intros Hm Hnone Hin. unfold names in Hin.
  apply list_elem_of_fmap in Hin as (sch' & Hn & Hin).
  apply list_elem_of_lookup in Hin as [i Hi].
  apply lookup_take_Some in Hi as [Hl Hi].
  assert (m !! measurement_name_ sch = Some (to_int32 (Z.of_nat i))) as Hz; [| congruence].
  apply Hm. exists i, sch'. eauto.
Qed.

Lemma init_insert_loop t h n c :
  c + n = length (schema_vec_ t) ->
  names_upto (schema_vec_ t) c (schema_map_ t) ->
  NoDup (names (take c (schema_vec_ t))) ->
  exists m r,
    for_range n c init_insert {| this := t; mem := h |}
    = Some (r, {| this := with_schema_map_ m t; mem := h |}) /\
    schema_map_ t ⊆ m /\
    ((r = None /\ names_upto (schema_vec_ t) (c + n) m /\ NoDup (names (schema_vec_ t)))
     \/ (r = Some E_INVALID_ARG /\ ~ NoDup (names (schema_vec_ t)) /\
         exists k sch, c <= k /\ names_upto (schema_vec_ t) k m /\
                       schema_vec_ t !! k = Some sch /\
                       is_Some (m !! measurement_name_ sch))).
Proof.
  revert c t. induction n as [| n IH]; intros c t Hlen Hm Hnd.
  - exists (schema_map_ t), None. split; [by destruct t |]. split; [done |].
    left. rewrite Nat.add_0_r. split; [done |]. split; [done |].
    rewrite <- (firstn_all (schema_vec_ t)). by rewrite <- Hlen, Nat.add_0_r.
  - destruct (lookup_lt_is_Some_2 (schema_vec_ t) c) as [sch Hc]; [lia |].
    simpl. unfold bind at 1, init_insert, bind at 1, schema_at, bind, get_this. simpl.
    rewrite Hc. unfold map_insert, ret. simpl.
    destruct (schema_map_ t !! measurement_name_ sch) as [z |] eqn:Hz; simpl.
    + exists (schema_map_ t), (Some E_INVALID_ARG). split; [done |]. split; [done |].
      right. split; [done |]. split; [by eapply names_upto_dup |].
      exists c, sch. split; [lia |]. split; [done |]. split; [done |]. by exists z.
    + set (m1 := <[measurement_name_ sch := to_int32 (Z.of_nat c)]> (schema_map_ t)).
      destruct (IH (S c) (with_schema_map_ m1 t)) as (m & r & Hrun & Hsub & Hres).
      * simpl. lia.
      * simpl. by apply names_upto_step.
      * simpl. rewrite (take_S_r _ _ sch) by done. unfold names. rewrite fmap_app.
        apply NoDup_app. split; [done |]. split.
        -- intros x Hx Hx'. apply list_elem_of_singleton in Hx'. subst x.
           by eapply names_upto_fresh.
        -- apply NoDup_singleton.
      * exists m, r. split; [exact Hrun |]. split.
        -- etrans; [| exact Hsub]. by apply insert_subseteq.
        -- simpl in Hres. replace (c + S n) with (S c + n) by lia.
           destruct Hres as [Hres | (Hr & Hdup & k & sch' & Hk & Hres)]; [by left |].
           right. split; [done |]. split; [done |]. exists k, sch'. split; [lia | done].
Qed.

Lemma init_column_loop t h1 n c :
  value_matrix_ t = Some (length h1) ->
  c + n = length (schema_vec_ t) ->
  for_range n c init_column (columns_state t h1 c)
  = Some (None, columns_state t h1 (c + n)).
Proof.
  intros Hvm. revert c. induction n as [| n IH]; intros c Hlen.
  - by rewrite Nat.add_0_r.
  - destruct (lookup_lt_is_Some_2 (schema_vec_ t) c) as [sch Hc]; [lia |].
    simpl. unfold bind at 1, init_column, bind at 1, schema_at, bind, get_this. simpl.
    rewrite Hc. unfold ret, malloc, deref. simpl. rewrite Hvm.
    rewrite <- app_assoc. simpl. rewrite block_at_middle.
    rewrite decide_True; last first.
    { rewrite length_app, length_fmap, length_seq, length_replicate. lia. }
    unfold store. simpl. rewrite insert_middle.
    replace (c + S n) with (S c + n) by lia. rewrite <- (IH (S c)) by lia.
    f_equal. unfold columns_state. f_equal. f_equal. f_equal; [f_equal |].
    + rewrite seq_S, fmap_app. simpl.
      replace (length (schema_vec_ t) - c) with (S (length (schema_vec_ t) - S c)) by lia.
      rewrite <- app_assoc. simpl.
      rewrite insert_app_r_alt by (rewrite length_fmap, length_seq; lia).
      rewrite length_fmap, length_seq, Nat.sub_diag. simpl.
      do 4 f_equal. rewrite !length_app. simpl. rewrite length_replicate. lia.
    + by rewrite replicate_S_end.
Qed.

Lemma init_bitmap_loop t h2 n c :
  bitmaps_ t = Some (length h2) ->
  c + n = length (schema_vec_ t) ->
  for_range n c init_bitmap (bitmaps_state t h2 c)
  = Some (None, bitmaps_state t h2 (c + n)).
Proof.
  intros Hbm. revert c. induction n as [| n IH]; intros c Hlen.
  - by rewrite Nat.add_0_r.
  - simpl. unfold bind at 1, init_bitmap, bind, get_this, deref. simpl.
    rewrite Hbm, block_at_middle.
    rewrite decide_True; last first.
    { rewrite length_app, !length_replicate. lia. }
    unfold store, ret. simpl. rewrite insert_middle.
    replace (c + S n) with (S c + n) by lia. rewrite <- (IH (S c)) by lia.
    f_equal. unfold bitmaps_state. do 6 f_equal.
    replace (length (schema_vec_ t) - c) with (S (length (schema_vec_ t) - S c)) by lia.
    rewrite insert_app_r_alt by (rewrite length_replicate; lia).
    rewrite length_replicate, Nat.sub_diag.
    rewrite (replicate_S_end c), <- app_assoc. done.
Qed.

(** ** The outcome of [init] on a new tablet *)

Lemma names_upto_empty l : names_upto l 0 ∅.
Proof.
  intros name z. rewrite lookup_empty. split; [done |].
  intros (i & ? & ? & _). lia.
Qed.

Lemma init_new_ok schema_vec max_rows h :
  NoDup (names schema_vec) ->
  exists m,
    init {| this := new_Tablet schema_vec max_rows; mem := h |}
    = Some (E_OK, {| this := init_tablet schema_vec max_rows h m;
                     mem := init_heap schema_vec max_rows h |}) /\
    names_upto schema_vec (length schema_vec) m.
Proof.
  intros Hnd. unfold init.
  unfold bind at 1, get_this. simpl. rewrite ASSERT_bind.
  unfold bind at 1, malloc. simpl.
  unfold bind at 1, modify_this. simpl.
  set (t1 := with_timestamps_ _ _). set (h1 := h ++ [_]).
  destruct (init_insert_loop t1 h1 (length schema_vec) 0) as (m & r & Hrun & _ & Hres).
  { done. } { apply names_upto_empty. } { simpl. apply NoDup_nil_2. }
  destruct Hres as [(-> & Hm & _) | (_ & Hdup & _)]; [| by destruct Hdup].
  exists m. split; [| done].
  unfold bind at 1. simpl in Hrun. rewrite Hrun.
  unfold bind at 1, get_this. simpl. rewrite ASSERT_bind.
  unfold bind at 1. simpl.
  unfold bind at 1. simpl.
  set (t2 := with_value_matrix_ _ _).
  pose proof (init_column_loop t2 h1 (length schema_vec) 0) as Hcols.
  unfold columns_state in Hcols. simpl in Hcols.
  rewrite Nat.sub_0_r in Hcols. unfold bind at 1.
  rewrite Hcols by done. clear Hcols.
  unfold bind at 1, malloc. simpl.
  unfold bind at 1, modify_this. simpl.
  set (t3 := with_bitmaps_ _ _). set (h2 := h1 ++ _ :: _).
  pose proof (init_bitmap_loop t3
                (h1 ++ Some (PtrArray ((Some <$> seq (S (length h1)) (length schema_vec))
                                       ++ replicate (length schema_vec - length schema_vec) None))
                    :: replicate (length schema_vec) (empty_column t2))
                (length schema_vec) 0) as Hbits.
  unfold bitmaps_state in Hbits. simpl in Hbits.
  rewrite Nat.sub_0_r in Hbits. unfold bind at 1.
  subst h2. rewrite Hbits by done. clear Hbits.
  unfold ret. do 2 f_equal.
  unfold init_tablet, init_heap, t3, t2, t1, h1, empty_column, BitMap_init. simpl.
  rewrite !Nat.sub_diag. simpl. rewrite !app_nil_r.
  rewrite !length_app. simpl. rewrite length_replicate.
  f_equal.
  - unfold with_bitmaps_. simpl. do 2 f_equal. lia.
  - rewrite <- !app_assoc. simpl.
    by replace (S (length h + 1)) with (length h + 2) by lia.
Qed.

(** A schema with a repeated name: [init] stops in the first loop, after the
    timestamp array has been allocated and the names before the repetition
    have been entered into [schema_map_]. *)
Lemma init_new_dup schema_vec max_rows h :
  ~ NoDup (names schema_vec) ->
  exists m k sch,
    init {| this := new_Tablet schema_vec max_rows; mem := h |}
    = Some (E_INVALID_ARG,
            {| this := with_schema_map_ m
                         (with_timestamps_ (Some (length h)) (new_Tablet schema_vec max_rows));
               mem := h ++ [Some (Int64Array (replicate (Z.to_nat max_rows) None))] |}) /\
    0 < k /\ names_upto schema_vec k m /\
    schema_vec !! k = Some sch /\ is_Some (m !! measurement_name_ sch).
Proof.
  intros Hdup. unfold init.
  unfold bind at 1, get_this. simpl. rewrite ASSERT_bind.
  unfold bind at 1, malloc. simpl.
  unfold bind at 1, modify_this. simpl.
  set (t1 := with_timestamps_ _ _). set (h1 := h ++ [_]).
  destruct (init_insert_loop t1 h1 (length schema_vec) 0) as (m & r & Hrun & _ & Hres).
  { done. } { apply names_upto_empty. } { simpl. apply NoDup_nil_2. }
  destruct Hres as [(_ & _ & Hnd) | (-> & _ & k & sch & _ & Hm & Hk & Hin)]; [done |].
  exists m, k, sch. simpl in *. unfold bind at 1. rewrite Hrun.
  split; [done |]. split; [| done].
  destruct k as [| k]; [| lia].
  destruct Hin as [z Hz]. apply Hm in Hz as (i & _ & Hi & _). lia.
Qed.

Lemma to_int32_small z : (0 <= z < 2 ^ 31)%Z -> to_int32 z = z.
Proof.
  intros Hz. unfold to_int32. rewrite Z.mod_small; lia.
Qed.

Lemma to_uint32_small z : (0 <= z < 2 ^ 32)%Z -> to_uint32 z = z.
Proof. intros Hz. unfold to_uint32. by rewrite Z.mod_small. Qed.

Section init_heap.
Variables (schema_vec : list MeasurementSchema) (max_rows : Z) (h : heap).

Lemma init_heap_timestamps :
  block_at (init_heap schema_vec max_rows h) (length h)
  = Some (Int64Array (replicate (Z.to_nat max_rows) None)).
Proof. unfold init_heap. simpl. by rewrite block_at_middle. Qed.

Lemma init_heap_matrix :
  block_at (init_heap schema_vec max_rows h) (length h + 1)
  = Some (PtrArray (Some <$> seq (length h + 2) (length schema_vec))).
Proof.
  unfold init_heap, block_at. rewrite lookup_app_r by lia.
  by replace (length h + 1 - length h) with 1 by lia.
Qed.

Lemma init_heap_column c :
  c < length schema_vec ->
  block_at (init_heap schema_vec max_rows h) (length h + 2 + c)
  = Some (ValueArray (replicate (Z.to_nat max_rows) None)).
Proof.
  intros Hc. unfold init_heap, block_at. rewrite lookup_app_r by lia.
  replace (length h + 2 + c - length h) with (S (S c)) by lia. simpl.
  rewrite lookup_app_l by (rewrite length_replicate; lia).
  by rewrite lookup_replicate_2.
Qed.

Lemma init_heap_bitmaps :
  block_at (init_heap schema_vec max_rows h) (length h + 2 + length schema_vec)
  = Some (BitMapArray (replicate (length schema_vec)
                                 (replicate (Z.to_nat max_rows) false))).
Proof.
  unfold init_heap, block_at. rewrite lookup_app_r by lia.
  replace (length h + 2 + length schema_vec - length h)
    with (S (S (length schema_vec))) by lia. simpl.
  rewrite lookup_app_r by (rewrite length_replicate; lia).
  by rewrite length_replicate, Nat.sub_diag.
Qed.
End init_heap.

(** A successful [init] establishes the invariant. *)
Lemma init_tablet_ok schema_vec max_rows h m :
  (0 <= max_rows < 2 ^ 31)%Z ->
  (Z.of_nat (length schema_vec) < 2 ^ 31)%Z ->
  NoDup (names schema_vec) ->
  names_upto schema_vec (length schema_vec) m ->
  tablet_ok {| this := init_tablet schema_vec max_rows h m;
               mem := init_heap schema_vec max_rows h |}.
Proof.
  intros Hrows Hcount Hnd Hm. split; simpl; try done.
  - intros name z. rewrite (Hm name z). split.
    + intros (i & sch & Hi & Hl & Hn & ->). exists i, sch.
      rewrite to_int32_small by lia. done.
    + intros (i & sch & Hl & Hn & ->). exists i, sch.
      apply lookup_lt_Some in Hl as Hi.
      rewrite to_int32_small by lia. done.
  - eexists _, _. split; [done |]. split; [apply init_heap_timestamps |].
    by rewrite length_replicate.
  - eexists _, _. split; [done |]. split; [apply init_heap_matrix |].
    unfold column_count, capacity. simpl.
    split; [by rewrite length_fmap, length_seq |]. split.
    + apply (NoDup_fmap_2 _). apply NoDup_seq.
    + intros c Hc. eexists _, _. split; [| split; [by apply init_heap_column |]].
      * rewrite list_lookup_fmap, lookup_seq_lt by done. done.
      * by rewrite length_replicate.
  - eexists _, _. split; [done |]. split; [apply init_heap_bitmaps |].
    unfold column_count, capacity. simpl.
    split; [by rewrite length_replicate |].
    apply Forall_replicate. by rewrite length_replicate.
Qed.

(** ** Stores that keep the layout *)

Lemma block_at_insert (h : heap) l b p :
  l < length h ->
  block_at (<[l := b]> h) p = if decide (l = p) then b else block_at h p.
Proof.
  intros Hl. case_decide as Hp.
  - subst p. by apply block_at_insert_eq.
  - by apply block_at_insert_ne.
Qed.

Lemma same_shape_refl b : same_shape b b.
Proof. by destruct b. Qed.

Lemma heap_same_shape_store h l b b' :
  block_at h l = Some b -> same_shape b b' ->
  heap_same_shape h (<[l := Some b']> h).
Proof.
  intros Hb Hshape p bp Hp. apply block_at_lt in Hb as Hl.
  rewrite block_at_insert by done. case_decide as Heq.
  - subst p. exists b'. split; [done |]. by replace bp with b by congruence.
  - exists bp. split; [done | apply same_shape_refl].
Qed.

Lemma heap_same_shape_trans h1 h2 h3 :
  heap_same_shape h1 h2 -> heap_same_shape h2 h3 -> heap_same_shape h1 h3.
Proof.
  intros H12 H23 p b1 Hp.
  destruct (H12 p b1 Hp) as (b2 & Hp2 & Hs12).
  destruct (H23 p b2 Hp2) as (b3 & Hp3 & Hs23).
  exists b3. split; [done |].
  destruct b1, b2, b3; simpl in *; try done; congruence.
Qed.

Lemma tablet_ok_same_shape s h' :
  tablet_ok s -> heap_same_shape (mem s) h' ->
  tablet_ok {| this := this s; mem := h' |}.
Proof.
  intros [Hrows Hcount Hnd Hmap Hts Hvm Hbm] Hh. split; simpl; try done.
  - destruct Hts as (p & a & Hp & Ha & Hlen).
    destruct (Hh p _ Ha) as ([a' | | |] & Ha' & Hs); try done.
    exists p, a'. unfold capacity in *. simpl in *. split; [done |]. split; [done | congruence].
  - destruct Hvm as (vm & ptrs & Hp & Ha & Hlen & Hndp & Hcols).
    destruct (Hh vm _ Ha) as ([| ptrs' | |] & Ha' & Hs); try done.
    simpl in Hs. subst ptrs'.
    exists vm, ptrs. split; [done |]. split; [done |]. split; [done |]. split; [done |].
    intros c Hc. destruct (Hcols c Hc) as (pc & a & Hpc & Hcol & Hcap).
    destruct (Hh pc _ Hcol) as ([| | a' |] & Hcol' & Hs); try done.
    exists pc, a'. unfold capacity in *. simpl in *. split; [done |]. split; [done | congruence].
  - destruct Hbm as (bm & bs & Hp & Ha & Hlen & Hall).
    destruct (Hh bm _ Ha) as ([| | | bs'] & Ha' & Hs); try done.
    simpl in Hs. exists bm, bs'. split; [done |]. split; [done |].
    unfold column_count, capacity in *. simpl in *. split.
    + rewrite <- Hlen, <- (length_fmap length bs'), <- Hs. by rewrite length_fmap.
    + assert (Forall (fun n => n = Z.to_nat (max_row_num_ (this s))) (length <$> bs))
        as Hall' by (by apply Forall_fmap).
      rewrite Hs in Hall'. by apply Forall_fmap in Hall'.
Qed.

(** ** [add_timestamp] *)

Lemma add_timestamp_out_of_range s row timestamp :
  (to_uint32 (max_row_num_ (this s)) <= Z.of_nat row)%Z ->
  add_timestamp row timestamp s = Some (E_OUT_OF_RANGE, s).
Proof.
  intros Hrow. unfold add_timestamp. unfold bind at 1, get_this. simpl.
  rewrite ASSERT_bind. unfold UNLIKELY. by rewrite bool_decide_eq_true_2.
Qed.

Lemma add_timestamp_in_range s row timestamp p a :
  (Z.of_nat row < to_uint32 (max_row_num_ (this s)))%Z ->
  timestamps_ (this s) = Some p ->
  block_at (mem s) p = Some (Int64Array a) ->
  row < length a ->
  add_timestamp row timestamp s
  = Some (E_OK, {| this := this s;
                   mem := <[p := Some (Int64Array (<[row := Some timestamp]> a))]> (mem s) |}).
Proof.
  intros Hrow Hp Ha Hlen. unfold add_timestamp. unfold bind at 1, get_this. simpl.
  rewrite ASSERT_bind. unfold UNLIKELY. rewrite bool_decide_eq_false_2 by lia.
  unfold bind, deref. rewrite Hp, Ha.
  by rewrite decide_True.
Qed.

Lemma timestamp_of_store s p a row timestamp :
  timestamps_ (this s) = Some p ->
  block_at (mem s) p = Some (Int64Array a) ->
  row < length a ->
  timestamp_of {| this := this s;
                  mem := <[p := Some (Int64Array (<[row := Some timestamp]> a))]> (mem s) |} row
  = Some timestamp.
Proof.
  intros Hp Ha Hlen. unfold timestamp_of. simpl. rewrite Hp. simpl.
  rewrite block_at_insert_eq by by eapply block_at_lt. simpl.
  by rewrite list_lookup_insert_eq.
Qed.

(** ** [add_value] *)

Lemma add_value_out_of_range s row col val :
  length (schema_vec_ (this s)) <= col ->
  add_value row col val s = Some (E_OUT_OF_RANGE, s).
Proof.
  intros Hcol. unfold add_value. unfold bind at 1, get_this. simpl.
  unfold LIKELY. by rewrite bool_decide_eq_true_2.
Qed.

Lemma add_value_type_mismatch s row col val sch :
  schema_vec_ (this s) !! col = Some sch ->
  GetDataTypeFromTemplateType val <> data_type_ sch ->
  add_value row col val s = Some (E_TYPE_NOT_MATCH, s).
Proof.
  intros Hsch Hty. apply lookup_lt_Some in Hsch as Hcol.
  unfold add_value, LIKELY, bind, get_this, schema_at, bind, get_this. simpl.
  rewrite bool_decide_eq_false_2 by lia. rewrite Hsch. unfold ret.
  by rewrite bool_decide_eq_true_2.
Qed.

Lemma add_value_type_match s row col val sch :
  schema_vec_ (this s) !! col = Some sch ->
  GetDataTypeFromTemplateType val = data_type_ sch ->
  add_value row col val s
  = (store_value row col val ;;; set_bit row col ;;; ret E_OK) s.
Proof.
  intros Hsch Hty. apply lookup_lt_Some in Hsch as Hcol.
  unfold add_value, LIKELY. unfold bind at 1, get_this. simpl.
  rewrite bool_decide_eq_false_2 by lia.
  unfold bind at 1, schema_at, bind at 1, get_this. simpl.
  rewrite Hsch. unfold ret at 1. by rewrite bool_decide_eq_false_2 by (by intros []).
Qed.

Section written.
Variables (s : state) (vm pc bm : loc) (ptrs : list (option loc)).
Variables (a : list (option value)) (bs : list BitMap) (b : BitMap).
Variables (row col : nat) (val : value).
Hypothesis Hvm : value_matrix_ (this s) = Some vm.
Hypothesis Hptrs : block_at (mem s) vm = Some (PtrArray ptrs).
Hypothesis Hpc : ptrs !! col = Some (Some pc).
Hypothesis Ha : block_at (mem s) pc = Some (ValueArray a).
Hypothesis Hrow : row < length a.
Hypothesis Hbm : bitmaps_ (this s) = Some bm.
Hypothesis Hbs : block_at (mem s) bm = Some (BitMapArray bs).
Hypothesis Hb : bs !! col = Some b.
Hypothesis Hbit : row < length b.

Local Abbreviation after_write := (written s pc bm a bs b row col val).

Lemma store_value_set_bit :
  (store_value row col val ;;; set_bit row col ;;; ret E_OK) s
  = Some (E_OK, after_write).
Proof.
  unfold bind at 1, store_value, bind at 1, get_this. simpl.
  unfold bind at 1, deref at 1. rewrite Hvm, Hptrs, Hpc.
  unfold bind at 1, deref at 1. rewrite Ha. rewrite decide_True by done.
  unfold store at 1.
  unfold bind at 1, set_bit, bind at 1, get_this. simpl.
  unfold bind at 1, deref at 1. simpl. rewrite Hbm.
  rewrite block_at_insert by by eapply block_at_lt.
  rewrite decide_False by (intros ->; congruence).
  rewrite Hbs, Hb. unfold BitMap_set. rewrite decide_True by done.
  done.
Qed.

Lemma written_block x :
  block_at (mem after_write) x
  = if decide (bm = x) then Some (BitMapArray (<[col := <[row := true]> b]> bs))
    else if decide (pc = x) then Some (ValueArray (<[row := Some val]> a))
         else block_at (mem s) x.
Proof.
  unfold written. simpl.
  rewrite block_at_insert by (rewrite length_insert; by eapply block_at_lt).
  case_decide; [done |].
  by rewrite block_at_insert by by eapply block_at_lt.
Qed.

Lemma written_same_shape : heap_same_shape (mem s) (mem after_write).
Proof.
  apply (heap_same_shape_trans _
           (<[pc := Some (ValueArray (<[row := Some val]> a))]> (mem s))).
  - eapply heap_same_shape_store; [exact Ha |]. simpl. by rewrite length_insert.
  - unfold written. simpl. eapply heap_same_shape_store.
    + rewrite block_at_insert by by eapply block_at_lt.
      rewrite decide_False by (intros ->; congruence). exact Hbs.
    + simpl. rewrite list_fmap_insert, length_insert.
      rewrite list_insert_id; [done |]. by rewrite list_lookup_fmap, Hb.
Qed.

Lemma written_cell : cell_of after_write row col = Some val.
Proof.
  unfold cell_of, column_of. simpl. rewrite Hvm. simpl.
  rewrite written_block.
  rewrite decide_False by (intros ->; congruence).
  rewrite decide_False by (intros ->; congruence).
  rewrite Hptrs. simpl. rewrite Hpc. simpl.
  rewrite written_block.
  rewrite decide_False by (intros ->; congruence).
  rewrite decide_True by done. simpl.
  by rewrite list_lookup_insert_eq.
Qed.

Lemma written_bit : bit_of after_write row col = Some true.
Proof.
  unfold bit_of, bitmap_of. simpl. rewrite Hbm. simpl.
  rewrite written_block. rewrite decide_True by done. simpl.
  rewrite list_lookup_insert_eq by by eapply lookup_lt_Some. simpl.
  by rewrite list_lookup_insert_eq.
Qed.

Lemma written_timestamps : timestamps_of after_write = timestamps_of s.
Proof.
  unfold timestamps_of. simpl. destruct (timestamps_ (this s)) as [p |]; [| done]. simpl.
  rewrite written_block. repeat case_decide; subst; [by rewrite Hbs | by rewrite Ha | done].
Qed.

Lemma written_other_bit r c :
  (r, c) <> (row, col) -> bit_of after_write r c = bit_of s r c.
Proof.
  intros Hne. unfold bit_of, bitmap_of. simpl. rewrite Hbm. simpl.
  rewrite written_block, decide_True by done. rewrite Hbs. simpl.
  destruct (decide (c = col)) as [-> | Hc].
  - rewrite list_lookup_insert_eq by by eapply lookup_lt_Some.
    rewrite Hb. simpl. apply list_lookup_insert_ne. congruence.
  - by rewrite list_lookup_insert_ne.
Qed.

Lemma written_other_cell r c :
  NoDup ptrs -> (r, c) <> (row, col) -> cell_of after_write r c = cell_of s r c.
Proof.
  intros Hnd Hne. unfold cell_of, column_of. simpl. rewrite Hvm. simpl.
  rewrite written_block.
  rewrite decide_False by (intros ->; congruence).
  rewrite decide_False by (intros ->; congruence).
  rewrite Hptrs. simpl.
  destruct (ptrs !! c) as [[pc' |] |] eqn:Hpc'; simpl; [| done | done].
  rewrite written_block. case_decide as Hx.
  { subst pc'. by rewrite Hbs. }
  case_decide as Hy; [| done].
  subst pc'. assert (c = col) as -> by by eapply NoDup_lookup.
  rewrite Ha. simpl. f_equal. apply list_lookup_insert_ne. congruence.
Qed.
End written.

(** A write of a value of the declared type into a cell of a well-formed
    tablet. *)
Lemma add_value_written s row col val sch :
  tablet_ok s ->
  row < capacity s ->
  schema_vec_ (this s) !! col = Some sch ->
  GetDataTypeFromTemplateType val = data_type_ sch ->
  exists s',
    add_value row col val s = Some (E_OK, s') /\
    this s' = this s /\ tablet_ok s' /\
    cell_of s' row col = Some val /\ bit_of s' row col = Some true /\
    timestamps_of s' = timestamps_of s /\
    forall r c, (r, c) <> (row, col) ->
                cell_of s' r c = cell_of s r c /\ bit_of s' r c = bit_of s r c.
Proof.
  intros Hok Hrow Hsch Hty. apply lookup_lt_Some in Hsch as Hcol.
  destruct (ok_matrix s Hok) as (vm & ptrs & Hvm & Hptrs & Hlen & Hnd & Hcols).
  destruct (Hcols col Hcol) as (pc & a & Hpc & Ha & Hcap).
  destruct (ok_bitmaps s Hok) as (bm & bs & Hbm & Hbs & Hlenb & Hall).
  destruct (lookup_lt_is_Some_2 bs col) as [b Hb]; [unfold column_count in *; lia |].
  assert (length b = capacity s) as Hbcap.
  { by eapply (Forall_lookup_1 _ _ _ _ Hall). }
  exists (written s pc bm a bs b row col val).
  split; [| split; [done |]; split; [| split; [| split; [| split]]]].
  - rewrite (add_value_type_match _ _ _ _ sch) by done.
    eapply store_value_set_bit; eauto; lia.
  - apply (tablet_ok_same_shape s); [done |]. by eapply written_same_shape.
  - eapply written_cell; eauto; lia.
  - eapply written_bit; eauto; lia.
  - by eapply written_timestamps.
  - intros r c Hne. split.
    + eapply written_other_cell; eauto; lia.
    + by eapply written_other_bit.
Qed.

(** ** [add_value] by measurement name *)

Lemma add_value_by_name_unknown s row name val :
  schema_map_ (this s) !! name = None ->
  add_value_by_name row name val s = Some (E_INVALID_ARG, s).
Proof.
  intros Hname. unfold add_value_by_name. unfold bind at 1, get_this. simpl.
  unfold LIKELY. by rewrite Hname, bool_decide_eq_true_2.
Qed.

Lemma add_value_by_name_known s row col sch val :
  tablet_ok s ->
  schema_vec_ (this s) !! col = Some sch ->
  add_value_by_name row (measurement_name_ sch) val s = add_value row col val s.
Proof.
  intros Hok Hsch. apply lookup_lt_Some in Hsch as Hcol.
  assert (schema_map_ (this s) !! measurement_name_ sch = Some (Z.of_nat col)) as Hname.
  { apply (ok_map s Hok). by exists col, sch. }
  unfold add_value_by_name, LIKELY, bind at 1, get_this. simpl. rewrite Hname.
  rewrite bool_decide_eq_false_2 by done.
  pose proof (ok_count s Hok) as Hcount. unfold column_count in Hcount.
  rewrite to_uint32_small by lia. by rewrite Nat2Z.id.
Qed.

Lemma tablet_ok_unknown_name s name :
  tablet_ok s -> name ∉ names (schema_vec_ (this s)) ->
  schema_map_ (this s) !! name = None.
Proof.
  intros Hok Hname. destruct (schema_map_ (this s) !! name) as [z |] eqn:Hz; [| done].
  apply (ok_map s Hok) in Hz as (c & sch & Hsch & Hn & _).
  destruct Hname. unfold names. apply list_elem_of_fmap. exists sch.
  split; [done |]. by eapply list_elem_of_lookup_2.
Qed.

(** ** [destroy] *)

Lemma for_range_S {A} n c (body : nat -> M (option A)) s :
  for_range (S n) c body s
  = match body c s with
    | Some (Some a, s') => Some (Some a, s')
    | Some (None, s') => for_range n (S c) body s'
    | None => None
    end.
Proof. simpl. unfold bind. by destruct (body c s) as [[[a |] s'] |]. Qed.

Lemma destroy_column_step t vm ptrs c pc b h :
  value_matrix_ t = Some vm ->
  block_at h vm = Some (PtrArray ptrs) ->
  ptrs !! c = Some (Some pc) ->
  block_at h pc = Some b ->
  destroy_column c {| this := t; mem := h |}
  = Some (None, {| this := t; mem := <[pc := None]> h |}).
Proof.
  intros Hvm Hptrs Hpc Hb. unfold destroy_column, bind, get_this, deref. simpl.
  rewrite Hvm, Hptrs, Hpc. unfold free. simpl. by rewrite Hb.
Qed.

(** The loop that frees the columns, from iteration [c] on. *)
Lemma destroy_column_loop t vm ptrs n c h :
  value_matrix_ t = Some vm ->
  block_at h vm = Some (PtrArray ptrs) ->
  NoDup ptrs ->
  (forall i, c <= i < c + n ->
             exists pc a, ptrs !! i = Some (Some pc) /\ block_at h pc = Some (ValueArray a)) ->
  exists h',
    for_range n c destroy_column {| this := t; mem := h |}
    = Some (None, {| this := t; mem := h' |}) /\
    (forall l, (forall i, c <= i < c + n -> ptrs !! i <> Some (Some l)) ->
               block_at h' l = block_at h l) /\
    (forall i pc, c <= i < c + n -> ptrs !! i = Some (Some pc) -> block_at h' pc = None).
Proof.
  intros Hvm. revert c h. induction n as [| n IH]; intros c h Hptrs Hnd Hcols.
  - exists h. split; [done |]. split; [done |]. intros i pc Hi. lia.
  - destruct (Hcols c) as (pc & a & Hpc & Ha); [lia |].
    assert (pc <> vm) as Hne by (intros ->; congruence).
    apply block_at_lt in Ha as Hlt.
    destruct (IH (S c) (<[pc := None]> h)) as (h' & Hrun & Hframe & Hfreed).
    { by rewrite block_at_insert_ne. }
    { done. }
    { intros i Hi. destruct (Hcols i) as (pc' & a' & Hpc' & Ha'); [lia |].
      exists pc', a'. split; [done |]. rewrite block_at_insert_ne; [done |].
      intros ->. assert (c = i) by by eapply NoDup_lookup. lia. }
    exists h'. split; [| split].
    + rewrite for_range_S.
      by rewrite (destroy_column_step t vm ptrs c pc (ValueArray a)).
    + intros l Hl. rewrite Hframe by (intros i Hi; apply Hl; lia).
      apply block_at_insert_ne. intros ->. by apply (Hl c); [lia |].
    + intros i pc' Hi Hpc'. destruct (decide (i = c)) as [-> | Hic].
      * assert (pc' = pc) as -> by congruence.
        rewrite Hframe; [by apply block_at_insert_eq |].
        intros i Hi' Hpci. assert (c = i) by by eapply NoDup_lookup. lia.
      * apply (Hfreed i); [lia | done].
Qed.

(** A second [destroy] finds [timestamps_] and [value_matrix_] null and goes
    straight to [delete[] bitmaps_]. *)
Lemma destroy_again s bm :
  timestamps_ (this s) = None -> value_matrix_ (this s) = None ->
  bitmaps_ (this s) = Some bm ->
  destroy s = free bm s.
Proof.
  intros Hts Hvm Hbm. unfold destroy.
  unfold bind at 1, get_this. simpl. rewrite Hts.
  unfold bind at 1, ret. unfold bind at 1. simpl. rewrite Hvm.
  unfold bind at 1, bind at 1. simpl. by rewrite Hbm.
Qed.

Lemma free_dangling s l : block_at (mem s) l = None -> free l s = None.
Proof. intros Hl. unfold free. by rewrite Hl. Qed.

Lemma destroy_ok s :
  tablet_ok s ->
  exists h' p vm bm,
    destroy s = Some (tt, {| this := with_value_matrix_ None (with_timestamps_ None (this s));
                             mem := h' |}) /\
    timestamps_ (this s) = Some p /\ value_matrix_ (this s) = Some vm /\
    bitmaps_ (this s) = Some bm /\
    block_at h' p = None /\ block_at h' vm = None /\ block_at h' bm = None.
Proof.
  intros Hok.
  destruct (ok_timestamps s Hok) as (p & ts & Hp & Hts & _).
  destruct (ok_matrix s Hok) as (vm & ptrs & Hvm & Hptrs & Hlen & Hnd & Hcols).
  destruct (ok_bitmaps s Hok) as (bm & bs & Hbm & Hbs & _).
  apply block_at_lt in Hts as Hplt. apply block_at_lt in Hptrs as Hvmlt.
  apply block_at_lt in Hbs as Hbmlt.
  assert (p <> vm) as Hpvm by (intros ->; congruence).
  assert (p <> bm) as Hpbm by (intros ->; congruence).
  assert (vm <> bm) as Hvmbm by (intros ->; congruence).
  assert (forall l, (exists b, block_at (mem s) l = Some b /\
                               forall a, b <> ValueArray a) ->
                    forall i, 0 <= i < 0 + column_count s -> ptrs !! i <> Some (Some l))
    as Hnotcol.
  { intros l (b & Hl & Hkind) i Hi Hpi.
    destruct (Hcols i) as (pc & a & Hpc & Ha & _); [lia |].
    assert (pc = l) as -> by congruence. apply (Hkind a). congruence. }
  destruct (destroy_column_loop (with_timestamps_ None (this s)) vm ptrs
              (column_count s) 0 (<[p := None]> (mem s)))
    as (h2 & Hrun & Hframe & _).
  { done. }
  { by rewrite block_at_insert_ne. }
  { done. }
  { intros i Hi. destruct (Hcols i) as (pc & a & Hpc & Ha & _); [lia |].
    exists pc, a. split; [done |]. rewrite block_at_insert_ne; [done |].
    intros ->. congruence. }
  assert (block_at h2 p = None) as Hp2.
  { rewrite Hframe; [by apply block_at_insert_eq |].
    apply Hnotcol. exists (Int64Array ts). by split. }
  assert (block_at h2 vm = Some (PtrArray ptrs)) as Hvm2.
  { rewrite Hframe; [by rewrite block_at_insert_ne |].
    apply Hnotcol. exists (PtrArray ptrs). by split. }
  assert (block_at h2 bm = Some (BitMapArray bs)) as Hbm2.
  { rewrite Hframe; [by rewrite block_at_insert_ne |].
    apply Hnotcol. exists (BitMapArray bs). by split. }
  apply block_at_lt in Hvm2 as Hvmlt2. apply block_at_lt in Hbm2 as Hbmlt2.
  exists (<[bm := None]> (<[vm := None]> h2)), p, vm, bm.
  split; [| split; [done |]; split; [done |]; split; [done |]; split; [| split]].
  - unfold destroy. unfold bind at 1, get_this. simpl. rewrite Hp.
    unfold bind at 1, bind at 1, free at 1. simpl. rewrite Hts. simpl.
    unfold bind at 1. simpl. rewrite Hvm.
    unfold bind at 1, bind at 1. unfold column_count in Hrun. rewrite Hrun.
    unfold bind at 1, free at 1. simpl. rewrite Hvm2. simpl.
    unfold bind at 1. simpl. rewrite Hbm.
    unfold free. simpl. rewrite block_at_insert_ne by done. by rewrite Hbm2.
  - rewrite !block_at_insert_ne by done. exact Hp2.
  - rewrite block_at_insert_ne by done. by apply block_at_insert_eq.
  - apply block_at_insert_eq. by rewrite length_insert.
Qed.

(** ** The invariant along a run *)

Lemma init_establishes_ok schema_vec max_rows h :
  (0 <= max_rows < 2 ^ 31)%Z ->
  (Z.of_nat (length schema_vec) < 2 ^ 31)%Z ->
  NoDup (names schema_vec) ->
  exists s',
    init {| this := new_Tablet schema_vec max_rows; mem := h |} = Some (E_OK, s') /\
    tablet_ok s'.
Proof.
  intros Hrows Hcount Hnd.
  destruct (init_new_ok schema_vec max_rows h Hnd) as (m & Hrun & Hm).
  eexists. split; [exact Hrun |]. by apply init_tablet_ok.
Qed.

Lemma add_timestamp_preserves_ok s row timestamp e s' :
  tablet_ok s -> add_timestamp row timestamp s = Some (e, s') -> tablet_ok s'.
Proof.
  intros Hok Hrun. pose proof (ok_rows s Hok) as Hrows.
  destruct (decide (max_row_num_ (this s) <= Z.of_nat row)%Z) as [Hge | Hlt].
  - rewrite add_timestamp_out_of_range in Hrun by (rewrite to_uint32_small; lia).
    by injection Hrun as _ <-.
  - destruct (ok_timestamps s Hok) as (p & a & Hp & Ha & Hlen). unfold capacity in Hlen.
    rewrite (add_timestamp_in_range s row timestamp p a) in Hrun;
      [| rewrite to_uint32_small; lia | done | done | lia].
    injection Hrun as _ <-. apply (tablet_ok_same_shape s); [done |]. simpl.
    eapply heap_same_shape_store; [exact Ha |]. simpl. by rewrite length_insert.
Qed.

(** With the type check passed, [add_value] on a row at or beyond the
    capacity runs off the end of the column array. *)
Lemma add_value_row_out_of_range s row col val sch :
  tablet_ok s ->
  capacity s <= row ->
  schema_vec_ (this s) !! col = Some sch ->
  GetDataTypeFromTemplateType val = data_type_ sch ->
  add_value row col val s = None.
Proof.
  intros Hok Hrow Hsch Hty. apply lookup_lt_Some in Hsch as Hcol.
  destruct (ok_matrix s Hok) as (vm & ptrs & Hvm & Hptrs & Hlen & Hnd & Hcols).
  destruct (Hcols col Hcol) as (pc & a & Hpc & Ha & Hcap).
  rewrite (add_value_type_match _ _ _ _ sch) by done.
  unfold bind at 1, store_value, bind at 1, get_this. simpl.
  unfold bind at 1, deref at 1. rewrite Hvm, Hptrs, Hpc.
  unfold bind at 1, deref at 1. rewrite Ha. by rewrite decide_False by lia.
Qed.

Lemma add_value_preserves_ok s row col val e s' :
  tablet_ok s -> add_value row col val s = Some (e, s') -> tablet_ok s'.
Proof.
  intros Hok Hrun.
  destruct (decide (column_count s <= col)) as [Hcol | Hcol].
  { rewrite add_value_out_of_range in Hrun by done. by injection Hrun as _ <-. }
  destruct (lookup_lt_is_Some_2 (schema_vec_ (this s)) col) as [sch Hsch];
    [unfold column_count in Hcol; lia |].
  destruct (decide (GetDataTypeFromTemplateType val = data_type_ sch)) as [Hty | Hty].
  - destruct (decide (row < capacity s)) as [Hrow | Hrow].
    + destruct (add_value_written s row col val sch) as (s1 & Hrun1 & _ & Hok1 & _); [done ..|].
      rewrite Hrun1 in Hrun. by injection Hrun as _ <-.
    + rewrite (add_value_row_out_of_range s row col val sch) in Hrun by (done || lia).
      discriminate.
  - rewrite (add_value_type_mismatch s row col val sch) in Hrun by done.
    by injection Hrun as _ <-.
Qed.

Lemma add_value_by_name_preserves_ok s row name val e s' :
  tablet_ok s -> add_value_by_name row name val s = Some (e, s') -> tablet_ok s'.
Proof.
  intros Hok. unfold add_value_by_name, LIKELY, bind at 1, get_this. simpl.
  destruct (schema_map_ (this s) !! name) as [z |].
  - rewrite bool_decide_eq_false_2 by done. by apply add_value_preserves_ok.
  - rewrite bool_decide_eq_true_2 by done. rewrite ASSERT_bind.
    unfold ret. by intros [= _ <-].
Qed.

(** ** The running examples *)

Lemma schema_t1_NoDup : NoDup (names schema_t1).
Proof. apply NoDup_singleton. Qed.

Lemma schema_dup_not_NoDup : ~ NoDup (names schema_dup).
Proof.
  intros Hnd. apply NoDup_cons_1_1 in Hnd. apply Hnd. simpl. apply list_elem_of_here.
Qed.

Lemma tablet_t1_ok : tablet_ok tablet_t1.
Proof.
  apply init_tablet_ok; [lia | simpl; lia | apply schema_t1_NoDup |].
  intros name z. split.
  - intros [<- <-]%lookup_singleton_Some.
    exists 0, {| measurement_name_ := "t1"; data_type_ := INT64 |}.
    simpl. split; [lia | done].
  - intros (i & sch & Hi & Hl & Hn & ->). simpl in Hi.
    destruct i as [| i]; [| lia]. simpl in Hl. injection Hl as <-. simpl in Hn. subst name.
    apply lookup_singleton_eq.
Qed.

Lemma init_fresh_t1 : init fresh_t1 = Some (E_OK, tablet_t1).
Proof. vm_compute. reflexivity. Qed.

(** ** The claims *)

(** C1, as stated, at a row outside the column: in the scenario's tablet
    (capacity 2, column t1 of type INT64) the index-form [add_value] of an
    INT64 value at row 5 and column 0 passes the column and type checks and
    then writes past the end of the column array; it does not return
    [E_OK], although the type of the value is the declared type. *)
Lemma add_value_row_unchecked :
  tablet_ok tablet_t1 /\
  schema_vec_ (this tablet_t1) !! 0 = Some {| measurement_name_ := "t1"; data_type_ := INT64 |} /\
  GetDataTypeFromTemplateType (VInt64 1) = INT64 /\
  add_value 5 0 (VInt64 1) tablet_t1 = None /\
  ~ ((exists s', add_value 5 0 (VInt64 1) tablet_t1 = Some (E_OK, s')) <->
     GetDataTypeFromTemplateType (VInt64 1) = INT64).
Proof.
  split; [apply tablet_t1_ok |]. split; [done |]. split; [done |].
  assert (add_value 5 0 (VInt64 1) tablet_t1 = None) as Hrun by (vm_compute; reflexivity).
  split; [exact Hrun |]. intros [_ Hsucc]. destruct Hsucc as [s' Hs']; [done |].
  rewrite Hrun in Hs'. discriminate.
Qed.

(** C1, amended: for every row index below the capacity, every column index
    within [0, column_count) and every value, the index-form [add_value]
    returns [E_OK] if and only if the runtime type of the value is the
    column's declared type; on success the value is in the column array at
    the row, the bitmap bit of the cell is set, and no other cell, bit or
    timestamp has changed; on a type mismatch it returns [E_TYPE_NOT_MATCH]
    and the state is the one before the call. *)
Theorem add_value_type_check s row col val sch :
  tablet_ok s ->
  row < capacity s ->
  schema_vec_ (this s) !! col = Some sch ->
  ((exists s', add_value row col val s = Some (E_OK, s')) <->
   GetDataTypeFromTemplateType val = data_type_ sch) /\
  (GetDataTypeFromTemplateType val = data_type_ sch ->
   exists s', add_value row col val s = Some (E_OK, s') /\
              cell_of s' row col = Some val /\ bit_of s' row col = Some true /\
              timestamps_of s' = timestamps_of s /\
              forall r c, (r, c) <> (row, col) ->
                          cell_of s' r c = cell_of s r c /\ bit_of s' r c = bit_of s r c) /\
  (GetDataTypeFromTemplateType val <> data_type_ sch ->
   add_value row col val s = Some (E_TYPE_NOT_MATCH, s)).
Proof.
  intros Hok Hrow Hsch. split; [split |]; [| | split].
  - intros [s' Hs'].
    destruct (decide (GetDataTypeFromTemplateType val = data_type_ sch)) as [| Hne]; [done |].
    rewrite (add_value_type_mismatch s row col val sch) in Hs' by done. discriminate.
  - intros Hty. destruct (add_value_written s row col val sch) as (s' & Hs' & _); eauto.
  - intros Hty.
    destruct (add_value_written s row col val sch) as (s' & Hs' & _ & _ & Hrest); eauto.
  - intros Hty. by apply add_value_type_mismatch with sch.
Qed.

Lemma add_value_type_check_witness :
  tablet_ok tablet_t1 /\ 1 < capacity tablet_t1 /\
  schema_vec_ (this tablet_t1) !! 0 = Some {| measurement_name_ := "t1"; data_type_ := INT64 |} /\
  ((exists s', add_value 1 0 (VInt64 42) tablet_t1 = Some (E_OK, s')) <->
   GetDataTypeFromTemplateType (VInt64 42) = INT64) /\
  (GetDataTypeFromTemplateType (VInt64 42) = INT64 ->
   exists s', add_value 1 0 (VInt64 42) tablet_t1 = Some (E_OK, s') /\
              cell_of s' 1 0 = Some (VInt64 42) /\ bit_of s' 1 0 = Some true /\
              timestamps_of s' = timestamps_of tablet_t1 /\
              forall r c, (r, c) <> (1, 0) ->
                          cell_of s' r c = cell_of tablet_t1 r c /\
                          bit_of s' r c = bit_of tablet_t1 r c) /\
  (GetDataTypeFromTemplateType (VInt64 42) <> INT64 ->
   add_value 1 0 (VInt64 42) tablet_t1 = Some (E_TYPE_NOT_MATCH, tablet_t1)).
Proof.
  split; [apply tablet_t1_ok |]. split; [vm_compute; lia |]. split; [reflexivity |].
  apply (add_value_type_check tablet_t1 1 0 (VInt64 42)
           {| measurement_name_ := "t1"; data_type_ := INT64 |}).
  - apply tablet_t1_ok.
  - vm_compute. lia.
  - reflexivity.
Defined.

(** C2: the scenario with capacity 2 and schema [t1 : INT64].  [init],
    [add_timestamp(0, 1000)] and [add_value(0, "t1", 42)] return [E_OK] and
    leave 42 in cell (0, t1) with its bit set; the third call,
    [add_value(5, "t1", 1)], returns no error code: the name is known, the
    column index is in range and the type matches, so the code writes row 5
    of a column of two rows. *)
Theorem scenario_row_5 :
  exists s0 s1 s2,
    init fresh_t1 = Some (E_OK, s0) /\
    add_timestamp 0 1000 s0 = Some (E_OK, s1) /\
    add_value_by_name 0 "t1" (VInt64 42) s1 = Some (E_OK, s2) /\
    cell_of s2 0 0 = Some (VInt64 42) /\ bit_of s2 0 0 = Some true /\
    add_value_by_name 5 "t1" (VInt64 1) s2 = None.
Proof.
  eexists _, _, _.
  split; [vm_compute; reflexivity |].
  split; [vm_compute; reflexivity |].
  split; [vm_compute; reflexivity |].
  repeat split; vm_compute; reflexivity.
Qed.

(** C3, as stated, on the schema that declares t1 twice (capacity 2, empty
    heap): [init] returns [E_INVALID_ARG], and afterwards [timestamps_]
    points to the live timestamp array and [schema_map_] holds t1. *)
Lemma init_duplicate_keeps_timestamps :
  exists s',
    init fresh_dup = Some (E_INVALID_ARG, s') /\
    timestamps_ (this s') = Some 0 /\
    block_at (mem s') 0 = Some (Int64Array [None; None]) /\
    live_blocks (mem s') = 1 /\ live_blocks (mem fresh_dup) = 0 /\
    schema_map_ (this s') !! "t1" = Some 0%Z /\ schema_map_ (this fresh_dup) !! "t1" = None.
Proof.
  eexists. split; [vm_compute; reflexivity |].
  repeat split; vm_compute; reflexivity.
Qed.

(** C3, amended: if the schema contains two entries with the same
    measurement name, [init] of a new tablet of capacity at least 0 returns
    [E_INVALID_ARG] and allocates no column array and no bitmap
    ([value_matrix_] and [bitmaps_] stay null); the timestamp array
    allocated before the name check stays allocated with [timestamps_]
    pointing to it, and [schema_map_] keeps the names of the entries before
    the first repeated one. *)
Theorem init_duplicate_name schema_vec max_rows h :
  (0 <= max_rows)%Z ->
  ~ NoDup (names schema_vec) ->
  exists s',
    init {| this := new_Tablet schema_vec max_rows; mem := h |} = Some (E_INVALID_ARG, s') /\
    value_matrix_ (this s') = None /\ bitmaps_ (this s') = None /\
    timestamps_ (this s') = Some (length h) /\
    mem s' = h ++ [Some (Int64Array (replicate (Z.to_nat max_rows) None))] /\
    exists k sch,
      0 < k /\ names_upto schema_vec k (schema_map_ (this s')) /\
      schema_vec !! k = Some sch /\
      is_Some (schema_map_ (this s') !! measurement_name_ sch).
Proof.
  intros Hrows Hdup.
  destruct (init_new_dup schema_vec max_rows h Hdup) as (m & k & sch & Hrun & Hk & Hm & Hsch & Hin).
  eexists. split; [exact Hrun |]. simpl.
  split; [done |]. split; [done |]. split; [done |]. split; [done |].
  by exists k, sch.
Qed.

Lemma init_duplicate_name_witness :
  (0 <= 2)%Z /\ ~ NoDup (names schema_dup) /\
  exists s',
    init fresh_dup = Some (E_INVALID_ARG, s') /\
    value_matrix_ (this s') = None /\ bitmaps_ (this s') = None /\
    timestamps_ (this s') = Some 0 /\
    mem s' = [Some (Int64Array (replicate (Z.to_nat 2) None))] /\
    exists k sch,
      0 < k /\ names_upto schema_dup k (schema_map_ (this s')) /\
      schema_dup !! k = Some sch /\
      is_Some (schema_map_ (this s') !! measurement_name_ sch).
Proof.
  split; [lia |]. split; [apply schema_dup_not_NoDup |].
  apply (init_duplicate_name schema_dup 2 []); [lia | apply schema_dup_not_NoDup].
Defined.

(** C4: on an initialised tablet, [add_timestamp] returns [E_OUT_OF_RANGE]
    and leaves the state as it is when the row index is at least the
    capacity; below the capacity it returns [E_OK], the slot of the row
    holds the timestamp, no other slot and no field of the tablet changes,
    and a second write to the row succeeds and leaves its own value, the
    first one having no effect on the outcome. *)
Theorem add_timestamp_spec s row timestamp :
  tablet_ok s ->
  ((max_row_num_ (this s) <= Z.of_nat row)%Z ->
   add_timestamp row timestamp s = Some (E_OUT_OF_RANGE, s)) /\
  ((Z.of_nat row < max_row_num_ (this s))%Z ->
   exists s',
     add_timestamp row timestamp s = Some (E_OK, s') /\
     this s' = this s /\
     timestamp_of s' row = Some timestamp /\
     (forall r, r <> row -> timestamp_of s' r = timestamp_of s r) /\
     forall timestamp2,
       exists s'',
         add_timestamp row timestamp2 s' = Some (E_OK, s'') /\
         timestamp_of s'' row = Some timestamp2 /\
         add_timestamp row timestamp2 s = Some (E_OK, s'')).
Proof.
  intros Hok. pose proof (ok_rows s Hok) as Hrows.
  assert (to_uint32 (max_row_num_ (this s)) = max_row_num_ (this s)) as Hcast
    by (apply to_uint32_small; lia).
  split.
  - intros Hrow. apply add_timestamp_out_of_range. lia.
  - intros Hrow. destruct (ok_timestamps s Hok) as (p & a & Hp & Ha & Hlen).
    unfold capacity in Hlen. apply block_at_lt in Ha as Hplt.
    assert (row < length a) as Hlt by lia.
    eexists. split; [apply (add_timestamp_in_range s row timestamp p a); [lia | done ..] |].
    split; [done |]. split; [by apply timestamp_of_store |]. split.
    + intros r Hr. unfold timestamp_of. simpl. rewrite Hp. simpl.
      rewrite block_at_insert_eq, Ha by done. simpl.
      by rewrite list_lookup_insert_ne.
    + intros timestamp2.
      exists {| this := this s;
                mem := <[p := Some (Int64Array (<[row := Some timestamp2]> a))]> (mem s) |}.
      split; [| split].
      * rewrite (add_timestamp_in_range _ row timestamp2 p (<[row := Some timestamp]> a)).
        -- simpl. by rewrite !list_insert_insert_eq.
        -- simpl. lia.
        -- done.
        -- simpl. by apply block_at_insert_eq.
        -- by rewrite length_insert.
      * by apply timestamp_of_store.
      * apply (add_timestamp_in_range s row timestamp2 p a); [lia | done ..].
Qed.

Lemma add_timestamp_spec_witness :
  tablet_ok tablet_t1 /\
  add_timestamp 2 1000 tablet_t1 = Some (E_OUT_OF_RANGE, tablet_t1) /\
  exists s',
    add_timestamp 1 1000 tablet_t1 = Some (E_OK, s') /\
    this s' = this tablet_t1 /\
    timestamp_of s' 1 = Some 1000%Z /\
    (forall r, r <> 1 -> timestamp_of s' r = timestamp_of tablet_t1 r) /\
    forall timestamp2,
      exists s'',
        add_timestamp 1 timestamp2 s' = Some (E_OK, s'') /\
        timestamp_of s'' 1 = Some timestamp2 /\
        add_timestamp 1 timestamp2 tablet_t1 = Some (E_OK, s'').
Proof.
  split; [apply tablet_t1_ok |]. split.
  - apply (add_timestamp_spec tablet_t1 2 1000 tablet_t1_ok). vm_compute. discriminate.
  - apply (add_timestamp_spec tablet_t1 1 1000 tablet_t1_ok). vm_compute. reflexivity.
Defined.

(** C5: for every column index greater than or equal to the number of
    columns, the index-form [add_value] returns [E_OUT_OF_RANGE] and the
    state, with every column array and every bitmap, is the one before the
    call. *)
Theorem add_value_column_out_of_range s row col val :
  column_count s <= col ->
  add_value row col val s = Some (E_OUT_OF_RANGE, s).
Proof. apply add_value_out_of_range. Qed.

Lemma add_value_column_out_of_range_witness :
  column_count tablet_t1 <= 1 /\
  add_value 0 1 (VInt64 42) tablet_t1 = Some (E_OUT_OF_RANGE, tablet_t1).
Proof.
  split; [vm_compute; lia |].
  apply (add_value_column_out_of_range tablet_t1 0 1 (VInt64 42)). vm_compute. lia.
Defined.

(** C6: on an initialised tablet, for the name of the schema entry at a
    column index the name form of [add_value] is the index form at that
    index, result and final state alike; for a name that no schema entry
    has it returns [E_INVALID_ARG] and the state is the one before the
    call. *)
Theorem add_value_by_name_spec s row val :
  tablet_ok s ->
  (forall col sch,
     schema_vec_ (this s) !! col = Some sch ->
     add_value_by_name row (measurement_name_ sch) val s = add_value row col val s) /\
  (forall name,
     name ∉ names (schema_vec_ (this s)) ->
     add_value_by_name row name val s = Some (E_INVALID_ARG, s)).
Proof.
  intros Hok. split.
  - intros col sch Hsch. by apply add_value_by_name_known.
  - intros name Hname. apply add_value_by_name_unknown. by apply tablet_ok_unknown_name.
Qed.

Lemma add_value_by_name_spec_witness :
  tablet_ok tablet_t1 /\
  add_value_by_name 0 "t1" (VInt64 42) tablet_t1 = add_value 0 0 (VInt64 42) tablet_t1 /\
  add_value_by_name 0 "t2" (VInt64 42) tablet_t1 = Some (E_INVALID_ARG, tablet_t1).
Proof.
  split; [apply tablet_t1_ok |].
  destruct (add_value_by_name_spec tablet_t1 0 (VInt64 42) tablet_t1_ok) as [Hknown Hunknown].
  split.
  - apply (Hknown 0 {| measurement_name_ := "t1"; data_type_ := INT64 |}). reflexivity.
  - apply Hunknown. simpl. intros Hin. apply list_elem_of_singleton in Hin. discriminate.
Defined.

(** C7: [init] of a new tablet whose schema has no repeated name returns
    [E_OK]; and after any [init] of a new tablet that returned [E_OK], the
    timestamp array, the array of each column and the bitmap of each column
    have exactly [max_row_num_] elements, and every bit of every bitmap is
    clear. *)
Theorem init_allocates schema_vec max_rows h :
  (0 <= max_rows)%Z ->
  (NoDup (names schema_vec) ->
   exists s', init {| this := new_Tablet schema_vec max_rows; mem := h |} = Some (E_OK, s')) /\
  (forall s',
     init {| this := new_Tablet schema_vec max_rows; mem := h |} = Some (E_OK, s') ->
     (exists ts, timestamps_of s' = Some ts /\ Z.of_nat (length ts) = max_rows) /\
     forall col, col < length schema_vec ->
       (exists a, column_of s' col = Some a /\ Z.of_nat (length a) = max_rows) /\
       (exists b, bitmap_of s' col = Some b /\ Z.of_nat (length b) = max_rows /\
                  forall row, row < length b -> bit_of s' row col = Some false)).
Proof.
  intros Hrows. split.
  - intros Hnd. destruct (init_new_ok schema_vec max_rows h Hnd) as (m & Hrun & _). eauto.
  - intros s' Hs'. destruct (decide (NoDup (names schema_vec))) as [Hnd | Hdup].
    + destruct (init_new_ok schema_vec max_rows h Hnd) as (m & Hrun & _).
      rewrite Hrun in Hs'. injection Hs' as <-. split.
      * eexists. unfold timestamps_of. simpl. rewrite init_heap_timestamps. simpl.
        split; [done |]. rewrite length_replicate. lia.
      * intros col Hcol. split.
        -- eexists. unfold column_of. simpl. rewrite init_heap_matrix. simpl.
           rewrite list_lookup_fmap, lookup_seq_lt by done. simpl.
           rewrite init_heap_column by done. split; [done |].
           rewrite length_replicate. lia.
        -- assert (bitmap_of {| this := init_tablet schema_vec max_rows h m;
                                mem := init_heap schema_vec max_rows h |} col
                   = Some (replicate (Z.to_nat max_rows) false)) as Hbm.
           { unfold bitmap_of. simpl. rewrite init_heap_bitmaps. simpl.
             by apply lookup_replicate_2. }
           eexists. split; [exact Hbm |]. rewrite length_replicate. split; [lia |].
           intros row Hrow. unfold bit_of. rewrite Hbm. simpl.
           by apply lookup_replicate_2.
    + destruct (init_new_dup schema_vec max_rows h Hdup) as (m & k & sch & Hrun & _).
      rewrite Hrun in Hs'. discriminate.
Qed.

Lemma init_allocates_witness :
  (0 <= 2)%Z /\ NoDup (names schema_t1) /\
  (exists s', init fresh_t1 = Some (E_OK, s')) /\
  (exists ts, timestamps_of tablet_t1 = Some ts /\ Z.of_nat (length ts) = 2%Z) /\
  forall col, col < length schema_t1 ->
    (exists a, column_of tablet_t1 col = Some a /\ Z.of_nat (length a) = 2%Z) /\
    (exists b, bitmap_of tablet_t1 col = Some b /\ Z.of_nat (length b) = 2%Z /\
               forall row, row < length b -> bit_of tablet_t1 row col = Some false).
Proof.
  split; [lia |]. split; [apply schema_t1_NoDup |].
  destruct (init_allocates schema_t1 2 []) as [Hrun Hafter]; [lia |].
  split; [apply Hrun, schema_t1_NoDup |].
  apply Hafter. apply init_fresh_t1.
Defined.

(** C8: for every cell of an initialised tablet (row below the capacity,
    column within the schema) and any two values of the column's declared
    type, the first [add_value] returns [E_OK] and the bitmap then reports
    the cell non-null; the second [add_value] on the result returns [E_OK]
    and leaves the second value in the cell and the bit set. *)
Theorem add_value_overwrite s row col sch val1 val2 :
  tablet_ok s ->
  row < capacity s ->
  schema_vec_ (this s) !! col = Some sch ->
  GetDataTypeFromTemplateType val1 = data_type_ sch ->
  GetDataTypeFromTemplateType val2 = data_type_ sch ->
  exists s1 s2,
    add_value row col val1 s = Some (E_OK, s1) /\
    cell_of s1 row col = Some val1 /\ bit_of s1 row col = Some true /\
    add_value row col val2 s1 = Some (E_OK, s2) /\
    cell_of s2 row col = Some val2 /\ bit_of s2 row col = Some true.
Proof.
  intros Hok Hrow Hsch Hty1 Hty2.
  destruct (add_value_written s row col val1 sch)
    as (s1 & Hrun1 & Hthis & Hok1 & Hcell1 & Hbit1 & _); [done ..|].
  destruct (add_value_written s1 row col val2 sch)
    as (s2 & Hrun2 & _ & _ & Hcell2 & Hbit2 & _); [done | | | done |].
  { unfold capacity in *. by rewrite Hthis. }
  { by rewrite Hthis. }
  by exists s1, s2.
Qed.

Lemma add_value_overwrite_witness :
  tablet_ok tablet_t1 /\ 1 < capacity tablet_t1 /\
  schema_vec_ (this tablet_t1) !! 0 = Some {| measurement_name_ := "t1"; data_type_ := INT64 |} /\
  GetDataTypeFromTemplateType (VInt64 42) = INT64 /\
  GetDataTypeFromTemplateType (VInt64 43) = INT64 /\
  exists s1 s2,
    add_value 1 0 (VInt64 42) tablet_t1 = Some (E_OK, s1) /\
    cell_of s1 1 0 = Some (VInt64 42) /\ bit_of s1 1 0 = Some true /\
    add_value 1 0 (VInt64 43) s1 = Some (E_OK, s2) /\
    cell_of s2 1 0 = Some (VInt64 43) /\ bit_of s2 1 0 = Some true.
Proof.
  split; [apply tablet_t1_ok |]. split; [vm_compute; lia |].
  split; [reflexivity |]. split; [reflexivity |]. split; [reflexivity |].
  apply (add_value_overwrite tablet_t1 1 0
           {| measurement_name_ := "t1"; data_type_ := INT64 |} (VInt64 42) (VInt64 43)).
  - apply tablet_t1_ok.
  - vm_compute. lia.
  - reflexivity.
  - reflexivity.
  - reflexivity.
Defined.

(** C9: [destroy] of an initialised tablet returns with [timestamps_] and
    [value_matrix_] null and their blocks released, and with [bitmaps_]
    still holding the address of the bitmap array it has released; a second
    [destroy] skips the timestamps and the columns and is the [delete[]] of
    that address again, which is undefined. *)
Theorem destroy_twice s :
  tablet_ok s ->
  exists s' p vm bm,
    destroy s = Some (tt, s') /\
    timestamps_ (this s) = Some p /\ value_matrix_ (this s) = Some vm /\
    bitmaps_ (this s) = Some bm /\
    timestamps_ (this s') = None /\ value_matrix_ (this s') = None /\
    bitmaps_ (this s') = Some bm /\
    block_at (mem s') p = None /\ block_at (mem s') vm = None /\
    block_at (mem s') bm = None /\
    destroy s' = free bm s' /\ destroy s' = None.
Proof.
  intros Hok.
  destruct (destroy_ok s Hok) as (h' & p & vm & bm & Hrun & Hp & Hvm & Hbm & Hfp & Hfvm & Hfbm).
  eexists _, p, vm, bm. split; [exact Hrun |]. simpl.
  do 9 (split; [done |]).
  assert (destroy {| this := with_value_matrix_ None (with_timestamps_ None (this s));
                     mem := h' |}
          = free bm {| this := with_value_matrix_ None (with_timestamps_ None (this s));
                       mem := h' |}) as Hagain by (by apply destroy_again).
  split; [exact Hagain |]. rewrite Hagain. by apply free_dangling.
Qed.

Lemma destroy_twice_witness :
  tablet_ok tablet_t1 /\
  exists s' p vm bm,
    destroy tablet_t1 = Some (tt, s') /\
    timestamps_ (this tablet_t1) = Some p /\ value_matrix_ (this tablet_t1) = Some vm /\
    bitmaps_ (this tablet_t1) = Some bm /\
    timestamps_ (this s') = None /\ value_matrix_ (this s') = None /\
    bitmaps_ (this s') = Some bm /\
    block_at (mem s') p = None /\ block_at (mem s') vm = None /\
    block_at (mem s') bm = None /\
    destroy s' = free bm s' /\ destroy s' = None.
Proof.
  split; [apply tablet_t1_ok |]. apply (destroy_twice tablet_t1). apply tablet_t1_ok.
Defined.

(** C10: the failure of [init] on a schema with a repeated name and the
    failure of the name form of [add_value] on a name that is not in
    [schema_map_] return one and the same code, [E_INVALID_ARG]. *)
Theorem duplicate_and_unknown_same_code schema_vec max_rows h s row name val :
  ~ NoDup (names schema_vec) ->
  schema_map_ (this s) !! name = None ->
  exists e s1 s2,
    init {| this := new_Tablet schema_vec max_rows; mem := h |} = Some (e, s1) /\
    add_value_by_name row name val s = Some (e, s2) /\
    e = E_INVALID_ARG.
Proof.
  intros Hdup Hname.
  destruct (init_new_dup schema_vec max_rows h Hdup) as (m & k & sch & Hrun & _).
  eexists E_INVALID_ARG, _, s. split; [exact Hrun |].
  split; [by apply add_value_by_name_unknown | done].
Qed.

Lemma duplicate_and_unknown_same_code_witness :
  ~ NoDup (names schema_dup) /\
  schema_map_ (this tablet_t1) !! "t2" = None /\
  exists e s1 s2,
    init fresh_dup = Some (e, s1) /\
    add_value_by_name 0 "t2" (VInt64 42) tablet_t1 = Some (e, s2) /\
    e = E_INVALID_ARG.
Proof.
  split; [apply schema_dup_not_NoDup |]. split; [vm_compute; reflexivity |].
  apply (duplicate_and_unknown_same_code schema_dup 2 [] tablet_t1 0 "t2" (VInt64 42)).
  - apply schema_dup_not_NoDup.
  - vm_compute. reflexivity.
Defined.

(** * Further properties *)

(** ** More on the running examples *)

Lemma add_value_t1_42 : add_value 0 0 (VInt64 42) tablet_t1 = Some (E_OK, tablet_t1_42).
Proof. vm_compute. reflexivity. Qed.

Lemma tablet_t1_42_ok : tablet_ok tablet_t1_42.
Proof. eapply add_value_preserves_ok; [apply tablet_t1_ok | apply add_value_t1_42]. Qed.

(** ** What a returning write has done *)

Lemma add_timestamp_inv s row timestamp e s' :
  add_timestamp row timestamp s = Some (e, s') ->
  (e = E_OUT_OF_RANGE /\ s' = s) \/
  (e = E_OK /\
   exists p a,
     timestamps_ (this s) = Some p /\ block_at (mem s) p = Some (Int64Array a) /\
     row < length a /\
     s' = {| this := this s;
             mem := <[p := Some (Int64Array (<[row := Some timestamp]> a))]> (mem s) |}).
Proof.
  intros Hrun.
  destruct (decide (to_uint32 (max_row_num_ (this s)) <= Z.of_nat row)%Z) as [Hge | Hlt].
  { rewrite add_timestamp_out_of_range in Hrun by done. injection Hrun as <- <-. by left. }
  right. unfold add_timestamp in Hrun. unfold bind at 1, get_this in Hrun. simpl in Hrun.
  rewrite ASSERT_bind in Hrun. unfold UNLIKELY in Hrun.
  rewrite bool_decide_eq_false_2 in Hrun by done. unfold bind, deref in Hrun.
  destruct (timestamps_ (this s)) as [p |] eqn:Hp; [| discriminate].
  destruct (block_at (mem s) p) as [[a | | |] |] eqn:Ha; try discriminate.
  destruct (decide (row < length a)) as [Hrow |]; [| discriminate].
  unfold store, ret in Hrun. simpl in Hrun. injection Hrun as <- <-.
  split; [done |]. by exists p, a.
Qed.

Lemma store_value_set_bit_inv s row col val e s' :
  (store_value row col val ;;; set_bit row col ;;; ret E_OK) s = Some (e, s') ->
  e = E_OK /\
  exists vm ptrs pc a bm bs b,
    value_matrix_ (this s) = Some vm /\ block_at (mem s) vm = Some (PtrArray ptrs) /\
    ptrs !! col = Some (Some pc) /\ block_at (mem s) pc = Some (ValueArray a) /\
    row < length a /\
    bitmaps_ (this s) = Some bm /\ block_at (mem s) bm = Some (BitMapArray bs) /\
    bs !! col = Some b /\ row < length b /\
    s' = written s pc bm a bs b row col val.
Proof.
  unfold bind at 1, store_value, bind at 1, get_this. simpl.
  unfold bind at 1, deref at 1.
  destruct (value_matrix_ (this s)) as [vm |] eqn:Hvm; [| discriminate].
  destruct (block_at (mem s) vm) as [[| ptrs | |] |] eqn:Hptrs; try discriminate.
  destruct (ptrs !! col) as [[pc |] |] eqn:Hpc; try discriminate.
  unfold bind at 1, deref at 1.
  destruct (block_at (mem s) pc) as [[| | a |] |] eqn:Ha; try discriminate.
  destruct (decide (row < length a)) as [Hrow |]; [| discriminate].
  unfold store at 1.
  unfold bind at 1, set_bit, bind at 1, get_this. simpl.
  unfold bind at 1, deref at 1. simpl.
  destruct (bitmaps_ (this s)) as [bm |] eqn:Hbm; [| discriminate].
  rewrite block_at_insert by by eapply block_at_lt.
  destruct (decide (pc = bm)) as [-> | Hne]; [discriminate |].
  destruct (block_at (mem s) bm) as [[| | | bs] |] eqn:Hbs; try discriminate.
  destruct (bs !! col) as [b |] eqn:Hb; [| discriminate].
  unfold BitMap_set. destruct (decide (row < length b)) as [Hbit |]; [| discriminate].
  unfold store, ret. simpl. intros [= <- <-]. split; [done |].
  by exists vm, ptrs, pc, a, bm, bs, b.
Qed.

Lemma add_value_inv s row col val e s' :
  add_value row col val s = Some (e, s') ->
  (e <> E_OK /\ s' = s) \/
  (e = E_OK /\
   exists sch vm ptrs pc a bm bs b,
     schema_vec_ (this s) !! col = Some sch /\
     GetDataTypeFromTemplateType val = data_type_ sch /\
     value_matrix_ (this s) = Some vm /\ block_at (mem s) vm = Some (PtrArray ptrs) /\
     ptrs !! col = Some (Some pc) /\ block_at (mem s) pc = Some (ValueArray a) /\
     row < length a /\
     bitmaps_ (this s) = Some bm /\ block_at (mem s) bm = Some (BitMapArray bs) /\
     bs !! col = Some b /\ row < length b /\
     s' = written s pc bm a bs b row col val).
Proof.
  intros Hrun.
  destruct (decide (length (schema_vec_ (this s)) <= col)) as [Hcol | Hcol].
  { rewrite add_value_out_of_range in Hrun by done. injection Hrun as <- <-. by left. }
  destruct (lookup_lt_is_Some_2 (schema_vec_ (this s)) col) as [sch Hsch]; [lia |].
  destruct (decide (GetDataTypeFromTemplateType val = data_type_ sch)) as [Hty | Hty].
  - rewrite (add_value_type_match s row col val sch) in Hrun by done.
    apply store_value_set_bit_inv in Hrun
      as (-> & vm & ptrs & pc & a & bm & bs & b & H).
    right. split; [done |]. exists sch, vm, ptrs, pc, a, bm, bs, b. by split.
  - rewrite (add_value_type_mismatch s row col val sch) in Hrun by done.
    injection Hrun as <- <-. by left.
Qed.

Lemma add_value_by_name_inv s row name val e s' :
  add_value_by_name row name val s = Some (e, s') ->
  (e = E_INVALID_ARG /\ s' = s /\ schema_map_ (this s) !! name = None) \/
  (exists second, schema_map_ (this s) !! name = Some second /\
                  add_value row (Z.to_nat (to_uint32 second)) val s = Some (e, s')).
Proof.
  unfold add_value_by_name, LIKELY, bind at 1, get_this. simpl.
  destruct (schema_map_ (this s) !! name) as [second |] eqn:Hname.
  - rewrite bool_decide_eq_false_2 by done. intros Hrun. right. by exists second.
  - rewrite bool_decide_eq_true_2 by done. rewrite ASSERT_bind. unfold ret.
    intros [= <- <-]. by left.
Qed.

(** ** Writes: what they never do *)

(** X1: whenever [add_timestamp], the index form of [add_value] or its name
    form returns an error code, in any state of the tablet and the heap, the
    state is the one before the call: an error is never a partial write. *)
Theorem write_error_leaves_state s row col name timestamp val e s' :
  add_timestamp row timestamp s = Some (e, s') \/
  add_value row col val s = Some (e, s') \/
  add_value_by_name row name val s = Some (e, s') ->
  e <> E_OK ->
  s' = s.
Proof.
  intros [Hrun | [Hrun | Hrun]] He.
  - apply add_timestamp_inv in Hrun as [[_ ->] | [-> _]]; done.
  - apply add_value_inv in Hrun as [[_ ->] | [-> _]]; done.
  - apply add_value_by_name_inv in Hrun as [(_ & -> & _) | (second & _ & Hrun)]; [done |].
    apply add_value_inv in Hrun as [[_ ->] | [-> _]]; done.
Qed.

Lemma write_error_leaves_state_witness :
  (add_timestamp 0 1000 tablet_t1 = Some (E_TYPE_NOT_MATCH, tablet_t1) \/
   add_value 0 0 (VInt32 7) tablet_t1 = Some (E_TYPE_NOT_MATCH, tablet_t1) \/
   add_value_by_name 0 "t1" (VInt32 7) tablet_t1 = Some (E_TYPE_NOT_MATCH, tablet_t1)) /\
  E_TYPE_NOT_MATCH <> E_OK /\
  tablet_t1 = tablet_t1.
Proof.
  assert (add_value 0 0 (VInt32 7) tablet_t1 = Some (E_TYPE_NOT_MATCH, tablet_t1)) as Hrun
    by (vm_compute; reflexivity).
  split; [right; left; exact Hrun |]. split; [discriminate |].
  apply (write_error_leaves_state tablet_t1 0 0 "t1" 1000 (VInt32 7) E_TYPE_NOT_MATCH tablet_t1).
  - right. left. exact Hrun.
  - discriminate.
Defined.

(** X2: no write changes a field of the tablet: after any return of
    [add_timestamp] or of either form of [add_value], the capacity, the
    schema, the name index and the three pointers are the ones before the
    call. *)
Theorem write_keeps_fields s row col name timestamp val e s' :
  add_timestamp row timestamp s = Some (e, s') \/
  add_value row col val s = Some (e, s') \/
  add_value_by_name row name val s = Some (e, s') ->
  this s' = this s.
Proof.
  intros [Hrun | [Hrun | Hrun]].
  - apply add_timestamp_inv in Hrun as [[_ ->] | (_ & p & a & _ & _ & _ & ->)]; done.
  - apply add_value_inv in Hrun as [[_ ->] | (_ & sch & vm & ptrs & pc & a & bm & bs & b & H)];
      [done |].
    destruct H as (_ & _ & _ & _ & _ & _ & _ & _ & _ & _ & _ & ->). done.
  - apply add_value_by_name_inv in Hrun as [(_ & -> & _) | (second & _ & Hrun)]; [done |].
    apply add_value_inv in Hrun as [[_ ->] | (_ & sch & vm & ptrs & pc & a & bm & bs & b & H)];
      [done |].
    destruct H as (_ & _ & _ & _ & _ & _ & _ & _ & _ & _ & _ & ->). done.
Qed.

Lemma write_keeps_fields_witness :
  exists s',
    (add_timestamp 0 1000 tablet_t1 = Some (E_OK, s') \/
     add_value 0 0 (VInt64 42) tablet_t1 = Some (E_OK, s') \/
     add_value_by_name 0 "t1" (VInt64 42) tablet_t1 = Some (E_OK, s')) /\
    this s' = this tablet_t1.
Proof.
  eexists. split; [right; left; vm_compute; reflexivity |].
  apply (write_keeps_fields tablet_t1 0 0 "t1" 1000 (VInt64 42) E_OK).
  right. left. vm_compute. reflexivity.
Defined.

Lemma store_live (h : heap) l b b' :
  block_at h l = Some b ->
  length (<[l := Some b']> h) = length h /\
  forall x, is_Some (block_at (<[l := Some b']> h) x) <-> is_Some (block_at h x).
Proof.
  intros Hb. apply block_at_lt in Hb as Hl. split; [apply length_insert |].
  intros x. rewrite block_at_insert by done. case_decide as Hx; [| done].
  subst x. rewrite Hb. split; intros _; by eexists.
Qed.

(** X3: no write allocates or releases memory: after any return of
    [add_timestamp] or of either form of [add_value], in any state, the heap
    has the same locations and the same ones are live. *)
Theorem write_keeps_live_blocks s row col name timestamp val e s' :
  add_timestamp row timestamp s = Some (e, s') \/
  add_value row col val s = Some (e, s') \/
  add_value_by_name row name val s = Some (e, s') ->
  length (mem s') = length (mem s) /\
  forall l, is_Some (block_at (mem s') l) <-> is_Some (block_at (mem s) l).
Proof.
  assert (forall col', add_value row col' val s = Some (e, s') ->
            length (mem s') = length (mem s) /\
            forall l, is_Some (block_at (mem s') l) <-> is_Some (block_at (mem s) l)) as Hval.
  { intros col' Hrun.
    apply add_value_inv in Hrun as [[_ ->] | (_ & sch & vm & ptrs & pc & a & bm & bs & b & H)];
      [done |].
    destruct H as (_ & _ & _ & _ & _ & Ha & _ & _ & Hbs & _ & _ & ->). simpl.
    destruct (store_live (mem s) pc (ValueArray a) (ValueArray (<[row := Some val]> a)) Ha)
      as [Hlen1 Hlive1].
    assert (is_Some (block_at (<[pc := Some (ValueArray (<[row := Some val]> a))]> (mem s)) bm))
      as [b1 Hb1] by (apply Hlive1; by eexists).
    destruct (store_live _ bm b1 (BitMapArray (<[col' := <[row := true]> b]> bs)) Hb1)
      as [Hlen2 Hlive2].
    split; [congruence |]. intros l. by rewrite Hlive2, Hlive1. }
  intros [Hrun | [Hrun | Hrun]].
  - apply add_timestamp_inv in Hrun as [[_ ->] | (_ & p & a & _ & Ha & _ & ->)]; [done |].
    simpl. by eapply store_live.
  - by eapply Hval.
  - apply add_value_by_name_inv in Hrun as [(_ & -> & _) | (second & _ & Hrun)]; [done |].
    by eapply Hval.
Qed.

Lemma write_keeps_live_blocks_witness :
  exists s',
    (add_timestamp 0 1000 tablet_t1 = Some (E_OK, s') \/
     add_value 0 0 (VInt64 42) tablet_t1 = Some (E_OK, s') \/
     add_value_by_name 0 "t1" (VInt64 42) tablet_t1 = Some (E_OK, s')) /\
    length (mem s') = length (mem tablet_t1) /\
    forall l, is_Some (block_at (mem s') l) <-> is_Some (block_at (mem tablet_t1) l).
Proof.
  eexists. split; [left; vm_compute; reflexivity |].
  apply (write_keeps_live_blocks tablet_t1 0 0 "t1" 1000 (VInt64 42) E_OK).
  left. vm_compute. reflexivity.
Defined.

(** X4: on an initialised tablet [add_timestamp] is defined for every row
    index, whereas the index form of [add_value] is undefined exactly when
    the column index is within the schema, the type of the value is the
    declared one and the row index is at or beyond the capacity: the only
    rows that reach the unchecked store. *)
Theorem add_value_undefined_iff s row col val timestamp :
  tablet_ok s ->
  add_timestamp row timestamp s <> None /\
  (add_value row col val s = None <->
   exists sch, schema_vec_ (this s) !! col = Some sch /\
               GetDataTypeFromTemplateType val = data_type_ sch /\
               capacity s <= row).
Proof.
  intros Hok. split.
  - pose proof (ok_rows s Hok) as Hrows.
    destruct (decide (max_row_num_ (this s) <= Z.of_nat row)%Z) as [Hge | Hlt].
    + by rewrite add_timestamp_out_of_range by (rewrite to_uint32_small; lia).
    + destruct (ok_timestamps s Hok) as (p & a & Hp & Ha & Hlen). unfold capacity in Hlen.
      by rewrite (add_timestamp_in_range s row timestamp p a);
        [| rewrite to_uint32_small; lia | | | lia].
  - split.
    + intros Hrun.
      destruct (decide (column_count s <= col)) as [Hcol | Hcol].
      { by rewrite add_value_out_of_range in Hrun. }
      destruct (lookup_lt_is_Some_2 (schema_vec_ (this s)) col) as [sch Hsch];
        [unfold column_count in Hcol; lia |].
      destruct (decide (GetDataTypeFromTemplateType val = data_type_ sch)) as [Hty | Hty].
      * exists sch. split; [done |]. split; [done |].
        destruct (decide (row < capacity s)) as [Hrow | Hrow]; [| lia].
        destruct (add_value_written s row col val sch) as (s1 & Hrun1 & _); [done ..|].
        congruence.
      * by rewrite (add_value_type_mismatch s row col val sch) in Hrun.
    + intros (sch & Hsch & Hty & Hrow). by apply add_value_row_out_of_range with sch.
Qed.

Lemma add_value_undefined_iff_witness :
  tablet_ok tablet_t1 /\
  add_timestamp 2 1000 tablet_t1 <> None /\
  (add_value 2 0 (VInt64 42) tablet_t1 = None <->
   exists sch, schema_vec_ (this tablet_t1) !! 0 = Some sch /\
               GetDataTypeFromTemplateType (VInt64 42) = data_type_ sch /\
               capacity tablet_t1 <= 2).
Proof.
  split; [apply tablet_t1_ok |].
  apply (add_value_undefined_iff tablet_t1 2 0 (VInt64 42) 1000). apply tablet_t1_ok.
Defined.

(** X5: the layout that [init] establishes is an invariant of the writes:
    whatever [add_timestamp] or either form of [add_value] returns on an
    initialised tablet, the tablet is still initialised, with arrays and
    bitmaps of the same sizes at the same places. *)
Theorem write_preserves_tablet_ok s row col name timestamp val e s' :
  tablet_ok s ->
  add_timestamp row timestamp s = Some (e, s') \/
  add_value row col val s = Some (e, s') \/
  add_value_by_name row name val s = Some (e, s') ->
  tablet_ok s' /\ capacity s' = capacity s /\ column_count s' = column_count s.
Proof.
  intros Hok Hrun.
  assert (this s' = this s) as Hthis.
  { destruct Hrun as [Hrun | [Hrun | Hrun]].
    - apply add_timestamp_inv in Hrun as [[_ ->] | (_ & p & a & _ & _ & _ & ->)]; done.
    - apply add_value_inv in Hrun
        as [[_ ->] | (_ & sch & vm & ptrs & pc & a & bm & bs & b & H)]; [done |].
      destruct H as (_ & _ & _ & _ & _ & _ & _ & _ & _ & _ & _ & ->). done.
    - apply add_value_by_name_inv in Hrun as [(_ & -> & _) | (second & _ & Hrun)]; [done |].
      apply add_value_inv in Hrun
        as [[_ ->] | (_ & sch & vm & ptrs & pc & a & bm & bs & b & H)]; [done |].
      destruct H as (_ & _ & _ & _ & _ & _ & _ & _ & _ & _ & _ & ->). done. }
  split; [| unfold capacity, column_count; by rewrite Hthis].
  destruct Hrun as [Hrun | [Hrun | Hrun]].
  - by eapply add_timestamp_preserves_ok.
  - by eapply add_value_preserves_ok.
  - by eapply add_value_by_name_preserves_ok.
Qed.

Lemma write_preserves_tablet_ok_witness :
  tablet_ok tablet_t1 /\
  exists s',
    (add_timestamp 0 1000 tablet_t1 = Some (E_OK, s') \/
     add_value 0 0 (VInt64 42) tablet_t1 = Some (E_OK, s') \/
     add_value_by_name 0 "t1" (VInt64 42) tablet_t1 = Some (E_OK, s')) /\
    tablet_ok s' /\ capacity s' = capacity tablet_t1 /\
    column_count s' = column_count tablet_t1.
Proof.
  split; [apply tablet_t1_ok |].
  eexists. split; [right; right; vm_compute; reflexivity |].
  apply (write_preserves_tablet_ok tablet_t1 0 0 "t1" 1000 (VInt64 42) E_OK).
  - apply tablet_t1_ok.
  - right. right. vm_compute. reflexivity.
Defined.

(** ** Writes: what they leave alone *)

Lemma cell_of_store_timestamps s p a a' r c :
  block_at (mem s) p = Some (Int64Array a) ->
  cell_of {| this := this s; mem := <[p := Some (Int64Array a')]> (mem s) |} r c
  = cell_of s r c.
Proof.
  intros Ha. apply block_at_lt in Ha as Hp. unfold cell_of, column_of. simpl.
  destruct (value_matrix_ (this s)) as [vm |]; [| done]. simpl.
  rewrite block_at_insert by done. case_decide as Hvm.
  { subst vm. by rewrite Ha. }
  destruct (block_at (mem s) vm) as [[| ptrs | |] |]; try done. simpl.
  destruct (ptrs !! c) as [[pc |] |]; try done. simpl.
  rewrite block_at_insert by done. case_decide as Hpc; [| done].
  subst pc. by rewrite Ha.
Qed.

Lemma bit_of_store_timestamps s p a a' r c :
  block_at (mem s) p = Some (Int64Array a) ->
  bit_of {| this := this s; mem := <[p := Some (Int64Array a')]> (mem s) |} r c
  = bit_of s r c.
Proof.
  intros Ha. apply block_at_lt in Ha as Hp. unfold bit_of, bitmap_of. simpl.
  destruct (bitmaps_ (this s)) as [bm |]; [| done]. simpl.
  rewrite block_at_insert by done. case_decide as Hbm; [| done].
  subst bm. by rewrite Ha.
Qed.

(** X6: [add_timestamp] writes nothing but a timestamp: after any return, in
    any state, every cell of every column and every bit of every bitmap
    reads as before the call. *)
Theorem add_timestamp_keeps_cells s row timestamp e s' :
  add_timestamp row timestamp s = Some (e, s') ->
  forall r c, cell_of s' r c = cell_of s r c /\ bit_of s' r c = bit_of s r c.
Proof.
  intros Hrun r c.
  apply add_timestamp_inv in Hrun as [[_ ->] | (_ & p & a & _ & Ha & _ & ->)]; [done |].
  split; [by eapply cell_of_store_timestamps | by eapply bit_of_store_timestamps].
Qed.

Lemma add_timestamp_keeps_cells_witness :
  exists s',
    add_timestamp 0 1000 tablet_t1 = Some (E_OK, s') /\
    forall r c, cell_of s' r c = cell_of tablet_t1 r c /\ bit_of s' r c = bit_of tablet_t1 r c.
Proof.
  eexists. split; [vm_compute; reflexivity |].
  apply (add_timestamp_keeps_cells tablet_t1 0 1000 E_OK). vm_compute. reflexivity.
Defined.

(** X7: no write clears a validity bit: a bit that is set stays set across
    any return of [add_timestamp] or of either form of [add_value], in any
    state; the code has no operation that marks a cell null again. *)
Theorem write_keeps_set_bits s row col name timestamp val e s' r c :
  bit_of s r c = Some true ->
  add_timestamp row timestamp s = Some (e, s') \/
  add_value row col val s = Some (e, s') \/
  add_value_by_name row name val s = Some (e, s') ->
  bit_of s' r c = Some true.
Proof.
  intros Hbit.
  assert (forall col', add_value row col' val s = Some (e, s') -> bit_of s' r c = Some true)
    as Hval.
  { intros col' Hrun.
    apply add_value_inv in Hrun as [[_ ->] | (_ & sch & vm & ptrs & pc & a & bm & bs & b & H)];
      [done |].
    destruct H as (_ & _ & Hvm & Hptrs & Hpc & Ha & Hrow & Hbm & Hbs & Hb & Hlen & ->).
    destruct (decide ((r, c) = (row, col'))) as [[= -> ->] | Hne].
    - by eapply written_bit.
    - rewrite <- Hbit. by eapply written_other_bit. }
  intros [Hrun | [Hrun | Hrun]].
  - apply add_timestamp_inv in Hrun as [[_ ->] | (_ & p & a & _ & Ha & _ & ->)]; [done |].
    rewrite <- Hbit. by eapply bit_of_store_timestamps.
  - by eapply Hval.
  - apply add_value_by_name_inv in Hrun as [(_ & -> & _) | (second & _ & Hrun)]; [done |].
    by eapply Hval.
Qed.

Lemma write_keeps_set_bits_witness :
  bit_of tablet_t1_42 0 0 = Some true /\
  exists s',
    (add_timestamp 1 1000 tablet_t1_42 = Some (E_OK, s') \/
     add_value 1 0 (VInt64 7) tablet_t1_42 = Some (E_OK, s') \/
     add_value_by_name 1 "t1" (VInt64 7) tablet_t1_42 = Some (E_OK, s')) /\
    bit_of s' 0 0 = Some true.
Proof.
  split; [vm_compute; reflexivity |].
  eexists. split; [right; left; vm_compute; reflexivity |].
  apply (write_keeps_set_bits tablet_t1_42 1 0 "t1" 1000 (VInt64 7) E_OK).
  - vm_compute. reflexivity.
  - right. left. vm_compute. reflexivity.
Defined.

(** ** Writes: how they compose *)

(** X8: a second write to a cell erases the first: if the index form of
    [add_value] has returned [E_OK] for a value, then writing another value
    of the same type to the same cell returns [E_OK] and ends in exactly the
    state that writing the second value alone would have given, in any state
    of the tablet. *)
Theorem second_write_erases_first s row col val1 val2 s1 :
  add_value row col val1 s = Some (E_OK, s1) ->
  GetDataTypeFromTemplateType val2 = GetDataTypeFromTemplateType val1 ->
  exists s2,
    add_value row col val2 s1 = Some (E_OK, s2) /\
    add_value row col val2 s = Some (E_OK, s2).
Proof.
  intros Hrun Hty.
  apply add_value_inv in Hrun as [[He _] | (_ & sch & vm & ptrs & pc & a & bm & bs & b & H)];
    [done |].
  destruct H as (Hsch & Hty1 & Hvm & Hptrs & Hpc & Ha & Hrow & Hbm & Hbs & Hb & Hlen & ->).
  assert (pc <> bm) as Hpcbm by (intros ->; congruence).
  assert (vm <> bm) as Hvmbm by (intros ->; congruence).
  assert (vm <> pc) as Hvmpc by (intros ->; congruence).
  apply lookup_lt_Some in Hb as Hcol.
  exists (written s pc bm a bs b row col val2). split.
  - rewrite (add_value_type_match _ row col val2 sch) by (done || congruence).
    rewrite (store_value_set_bit (written s pc bm a bs b row col val1) vm pc bm ptrs
               (<[row := Some val1]> a) (<[col := <[row := true]> b]> bs)
               (<[row := true]> b) row col val2); simpl.
    + unfold written. simpl. do 2 f_equal. f_equal.
      rewrite !list_insert_insert_eq.
      rewrite (list_insert_insert_ne _ pc bm) by done.
      by rewrite !list_insert_insert_eq.
    + done.
    + rewrite (written_block s pc bm a bs b row col val1) by done.
      by rewrite !decide_False by done.
    + done.
    + rewrite (written_block s pc bm a bs b row col val1) by done.
      rewrite decide_False by done. by rewrite decide_True.
    + by rewrite length_insert.
    + done.
    + rewrite (written_block s pc bm a bs b row col val1) by done.
      by rewrite decide_True.
    + by apply list_lookup_insert_eq.
    + by rewrite length_insert.
  - rewrite (add_value_type_match _ row col val2 sch) by (done || congruence).
    by eapply store_value_set_bit.
Qed.

Lemma second_write_erases_first_witness :
  add_value 0 0 (VInt64 42) tablet_t1 = Some (E_OK, tablet_t1_42) /\
  GetDataTypeFromTemplateType (VInt64 7) = GetDataTypeFromTemplateType (VInt64 42) /\
  exists s2,
    add_value 0 0 (VInt64 7) tablet_t1_42 = Some (E_OK, s2) /\
    add_value 0 0 (VInt64 7) tablet_t1 = Some (E_OK, s2).
Proof.
  split; [vm_compute; reflexivity |]. split; [reflexivity |].
  apply (second_write_erases_first tablet_t1 0 0 (VInt64 42) (VInt64 7) tablet_t1_42).
  - vm_compute. reflexivity.
  - reflexivity.
Defined.

(** X9: writes to two different cells of an initialised tablet commute: with
    rows below the capacity and values of the declared types, either order
    returns [E_OK] twice, and the two final states have the same fields, the
    same timestamps, and the same value and bit in every cell. *)
Theorem writes_to_distinct_cells_commute s r1 c1 val1 sch1 r2 c2 val2 sch2 :
  tablet_ok s ->
  r1 < capacity s -> r2 < capacity s ->
  schema_vec_ (this s) !! c1 = Some sch1 ->
  schema_vec_ (this s) !! c2 = Some sch2 ->
  GetDataTypeFromTemplateType val1 = data_type_ sch1 ->
  GetDataTypeFromTemplateType val2 = data_type_ sch2 ->
  (r1, c1) <> (r2, c2) ->
  exists s12 s21,
    (add_value r1 c1 val1 ;;; add_value r2 c2 val2) s = Some (E_OK, s12) /\
    (add_value r2 c2 val2 ;;; add_value r1 c1 val1) s = Some (E_OK, s21) /\
    this s12 = this s21 /\ timestamps_of s12 = timestamps_of s21 /\
    forall r c, cell_of s12 r c = cell_of s21 r c /\ bit_of s12 r c = bit_of s21 r c.
Proof.
  intros Hok Hr1 Hr2 Hsch1 Hsch2 Hty1 Hty2 Hne.
  destruct (add_value_written s r1 c1 val1 sch1)
    as (s1 & Hrun1 & Hthis1 & Hok1 & Hcell1 & Hbit1 & Hts1 & Hframe1); [done ..|].
  destruct (add_value_written s r2 c2 val2 sch2)
    as (s2 & Hrun2 & Hthis2 & Hok2 & Hcell2 & Hbit2 & Hts2 & Hframe2); [done ..|].
  destruct (add_value_written s1 r2 c2 val2 sch2)
    as (s12 & Hrun12 & Hthis12 & _ & Hcell12 & Hbit12 & Hts12 & Hframe12);
    [done | unfold capacity in *; by rewrite Hthis1 | by rewrite Hthis1 | done |].
  destruct (add_value_written s2 r1 c1 val1 sch1)
    as (s21 & Hrun21 & Hthis21 & _ & Hcell21 & Hbit21 & Hts21 & Hframe21);
    [done | unfold capacity in *; by rewrite Hthis2 | by rewrite Hthis2 | done |].
  exists s12, s21.
  split; [unfold bind; by rewrite Hrun1 |]. split; [unfold bind; by rewrite Hrun2 |].
  split; [congruence |]. split; [congruence |].
  intros r c. destruct (decide ((r, c) = (r1, c1))) as [[= -> ->] | Hne1].
  - destruct (Hframe12 r1 c1) as [-> ->]; [done |]. by rewrite Hcell1, Hbit1, Hcell21, Hbit21.
  - destruct (decide ((r, c) = (r2, c2))) as [[= -> ->] | Hne2].
    + destruct (Hframe21 r2 c2) as [-> ->]; [done |]. by rewrite Hcell2, Hbit2, Hcell12, Hbit12.
    + destruct (Hframe12 r c) as [-> ->]; [done |]. destruct (Hframe21 r c) as [-> ->]; [done |].
      destruct (Hframe1 r c) as [-> ->]; [done |]. destruct (Hframe2 r c) as [-> ->]; done.
Qed.

Lemma writes_to_distinct_cells_commute_witness :
  tablet_ok tablet_t1 /\ 0 < capacity tablet_t1 /\ 1 < capacity tablet_t1 /\
  schema_vec_ (this tablet_t1) !! 0 = Some {| measurement_name_ := "t1"; data_type_ := INT64 |} /\
  GetDataTypeFromTemplateType (VInt64 42) = INT64 /\
  GetDataTypeFromTemplateType (VInt64 7) = INT64 /\
  (0, 0) <> (1, 0) /\
  exists s12 s21,
    (add_value 0 0 (VInt64 42) ;;; add_value 1 0 (VInt64 7)) tablet_t1 = Some (E_OK, s12) /\
    (add_value 1 0 (VInt64 7) ;;; add_value 0 0 (VInt64 42)) tablet_t1 = Some (E_OK, s21) /\
    this s12 = this s21 /\ timestamps_of s12 = timestamps_of s21 /\
    forall r c, cell_of s12 r c = cell_of s21 r c /\ bit_of s12 r c = bit_of s21 r c.
Proof.
  split; [apply tablet_t1_ok |]. split; [vm_compute; lia |]. split; [vm_compute; lia |].
  split; [reflexivity |]. split; [reflexivity |]. split; [reflexivity |].
  split; [discriminate |].
  apply (writes_to_distinct_cells_commute tablet_t1 0 0 (VInt64 42)
           {| measurement_name_ := "t1"; data_type_ := INT64 |} 1 0 (VInt64 7)
           {| measurement_name_ := "t1"; data_type_ := INT64 |}).
  - apply tablet_t1_ok.
  - vm_compute. lia.
  - vm_compute. lia.
  - reflexivity.
  - reflexivity.
  - reflexivity.
  - reflexivity.
  - discriminate.
Defined.

(** X10: the five instantiations of [add_value] cover BOOLEAN, INT32, INT64,
    FLOAT and DOUBLE only: on a column declared with any other type every
    [add_value], by index or by name of an initialised tablet, returns
    [E_TYPE_NOT_MATCH] and changes nothing, for every row index and every
    value. *)
Theorem add_value_uninstantiated_type s row col val sch :
  schema_vec_ (this s) !! col = Some sch ->
  data_type_ sch ∉ [BOOLEAN; INT32; INT64; FLOAT; DOUBLE] ->
  add_value row col val s = Some (E_TYPE_NOT_MATCH, s) /\
  (tablet_ok s ->
   add_value_by_name row (measurement_name_ sch) val s = Some (E_TYPE_NOT_MATCH, s)).
Proof.
  intros Hsch Hty.
  assert (add_value row col val s = Some (E_TYPE_NOT_MATCH, s)) as Hrun.
  { apply add_value_type_mismatch with sch; [done |]. intros Heq. apply Hty.
    rewrite <- Heq. destruct val; simpl; set_solver. }
  split; [done |]. intros Hok. by rewrite (add_value_by_name_known s row col sch).
Qed.

Lemma add_value_uninstantiated_type_witness :
  schema_vec_ (this tablet_text) !! 0
  = Some {| measurement_name_ := "s1"; data_type_ := TEXT |} /\
  (TEXT ∉ [BOOLEAN; INT32; INT64; FLOAT; DOUBLE]) /\
  add_value 0 0 (VInt64 42) tablet_text = Some (E_TYPE_NOT_MATCH, tablet_text) /\
  (tablet_ok tablet_text ->
   add_value_by_name 0 "s1" (VInt64 42) tablet_text = Some (E_TYPE_NOT_MATCH, tablet_text)).
Proof.
  assert (TEXT ∉ [BOOLEAN; INT32; INT64; FLOAT; DOUBLE]) as Hty.
  { intros Hin. repeat (apply elem_of_cons in Hin as [Hin | Hin]; [discriminate |]).
    by apply elem_of_nil in Hin. }
  split; [reflexivity |]. split; [exact Hty |].
  apply (add_value_uninstantiated_type tablet_text 0 0 (VInt64 42)
           {| measurement_name_ := "s1"; data_type_ := TEXT |}).
  - reflexivity.
  - exact Hty.
Defined.

(** ** The life cycle: [init] and [destroy] together *)

Lemma destroy_ok_frame s :
  tablet_ok s ->
  exists h' p vm ptrs bm,
    destroy s = Some (tt, {| this := with_value_matrix_ None (with_timestamps_ None (this s));
                             mem := h' |}) /\
    timestamps_ (this s) = Some p /\ value_matrix_ (this s) = Some vm /\
    block_at (mem s) vm = Some (PtrArray ptrs) /\ bitmaps_ (this s) = Some bm /\
    (forall l, l = p \/ l = vm \/ l = bm \/ (exists c, ptrs !! c = Some (Some l)) ->
               block_at h' l = None) /\
    (forall l, l <> p -> l <> vm -> l <> bm -> (forall c, ptrs !! c <> Some (Some l)) ->
               block_at h' l = block_at (mem s) l).
Proof.
  intros Hok.
  destruct (ok_timestamps s Hok) as (p & ts & Hp & Hts & _).
  destruct (ok_matrix s Hok) as (vm & ptrs & Hvm & Hptrs & Hlen & Hnd & Hcols).
  destruct (ok_bitmaps s Hok) as (bm & bs & Hbm & Hbs & _).
  apply block_at_lt in Hts as Hplt. apply block_at_lt in Hptrs as Hvmlt.
  apply block_at_lt in Hbs as Hbmlt.
  assert (p <> vm) as Hpvm by (intros ->; congruence).
  assert (p <> bm) as Hpbm by (intros ->; congruence).
  assert (vm <> bm) as Hvmbm by (intros ->; congruence).
  assert (forall l, (exists b, block_at (mem s) l = Some b /\
                               forall a, b <> ValueArray a) ->
                    forall i, 0 <= i < 0 + column_count s -> ptrs !! i <> Some (Some l))
    as Hnotcol.
  { intros l (b & Hl & Hkind) i Hi Hpi.
    destruct (Hcols i) as (pc & a & Hpc & Ha & _); [lia |].
    assert (pc = l) as -> by congruence. apply (Hkind a). congruence. }
  destruct (destroy_column_loop (with_timestamps_ None (this s)) vm ptrs
              (column_count s) 0 (<[p := None]> (mem s)))
    as (h2 & Hrun & Hframe & Hfreed).
  { done. }
  { by rewrite block_at_insert_ne. }
  { done. }
  { intros i Hi. destruct (Hcols i) as (pc & a & Hpc & Ha & _); [lia |].
    exists pc, a. split; [done |]. rewrite block_at_insert_ne; [done |].
    intros ->. congruence. }
  assert (block_at h2 p = None) as Hp2.
  { rewrite Hframe; [by apply block_at_insert_eq |].
    apply Hnotcol. exists (Int64Array ts). by split. }
  assert (block_at h2 vm = Some (PtrArray ptrs)) as Hvm2.
  { rewrite Hframe; [by rewrite block_at_insert_ne |].
    apply Hnotcol. exists (PtrArray ptrs). by split. }
  assert (block_at h2 bm = Some (BitMapArray bs)) as Hbm2.
  { rewrite Hframe; [by rewrite block_at_insert_ne |].
    apply Hnotcol. exists (BitMapArray bs). by split. }
  apply block_at_lt in Hvm2 as Hvmlt2. apply block_at_lt in Hbm2 as Hbmlt2.
  exists (<[bm := None]> (<[vm := None]> h2)), p, vm, ptrs, bm.
  split; [| split; [done |]; split; [done |]; split; [done |]; split; [done |]; split].
  - unfold destroy. unfold bind at 1, get_this. simpl. rewrite Hp.
    unfold bind at 1, bind at 1, free at 1. simpl. rewrite Hts. simpl.
    unfold bind at 1. simpl. rewrite Hvm.
    unfold bind at 1, bind at 1. unfold column_count in Hrun. rewrite Hrun.
    unfold bind at 1, free at 1. simpl. rewrite Hvm2. simpl.
    unfold bind at 1. simpl. rewrite Hbm.
    unfold free. simpl. rewrite block_at_insert_ne by done. by rewrite Hbm2.
  - intros l Hl.
    destruct (decide (l = bm)) as [-> | Hlbm].
    { apply block_at_insert_eq. by rewrite length_insert. }
    rewrite block_at_insert_ne by done.
    destruct (decide (l = vm)) as [-> | Hlvm]; [by apply block_at_insert_eq |].
    rewrite block_at_insert_ne by done.
    destruct Hl as [-> | [-> | [-> | [c Hc]]]]; [done .. |].
    apply (Hfreed c); [| done]. apply lookup_lt_Some in Hc. lia.
  - intros l Hlp Hlvm Hlbm Hl.
    rewrite !block_at_insert_ne by done.
    rewrite Hframe by (intros i _; apply Hl). by apply block_at_insert_ne.
Qed.

(** X11: [destroy] of an initialised tablet releases exactly what the tablet
    owns: the timestamp array, the pointer array, every column array and the
    bitmap array are released, and every other block of the heap is as
    before. *)
Theorem destroy_releases_owned s :
  tablet_ok s ->
  exists s',
    destroy s = Some (tt, s') /\
    forall l, (owns s l -> block_at (mem s') l = None) /\
              (~ owns s l -> block_at (mem s') l = block_at (mem s) l).
Proof.
  intros Hok.
  destruct (destroy_ok_frame s Hok)
    as (h' & p & vm & ptrs & bm & Hrun & Hp & Hvm & Hptrs & Hbm & Hfreed & Hframe).
  eexists. split; [exact Hrun |]. simpl. intros l. split.
  - intros Hl. apply Hfreed. unfold owns in Hl. rewrite Hp, Hvm, Hbm in Hl.
    destruct Hl as [[= ->] | [[= ->] | [[= ->] | (vm' & ptrs' & c & [= <-] & Hptrs' & Hc)]]];
      [by left | by right; left | by right; right; left |].
    right. right. right. exists c. congruence.
  - intros Hl. apply Hframe.
    + intros ->. apply Hl. by left.
    + intros ->. apply Hl. by right; left.
    + intros ->. apply Hl. by right; right; left.
    + intros c Hc. apply Hl. right. right. right. by exists vm, ptrs, c.
Qed.

Lemma destroy_releases_owned_witness :
  tablet_ok tablet_t1_42 /\
  exists s',
    destroy tablet_t1_42 = Some (tt, s') /\
    forall l, (owns tablet_t1_42 l -> block_at (mem s') l = None) /\
              (~ owns tablet_t1_42 l -> block_at (mem s') l = block_at (mem tablet_t1_42) l).
Proof.
  split; [apply tablet_t1_42_ok |].
  apply (destroy_releases_owned tablet_t1_42). apply tablet_t1_42_ok.
Defined.





Lemma init_insert_present t h c sch :
  schema_vec_ t !! c = Some sch ->
  is_Some (schema_map_ t !! measurement_name_ sch) ->
  init_insert c {| this := t; mem := h |}
  = Some (Some E_INVALID_ARG, {| this := with_schema_map_ (schema_map_ t) t; mem := h |}).
Proof.
  intros Hsch [z Hz]. unfold init_insert, bind at 1, schema_at, bind, get_this. simpl.
  rewrite Hsch. unfold ret, map_insert. simpl. by rewrite Hz.
Qed.

(** [init] on a tablet whose name index already holds the first name of the
    schema: the first loop stops at once. *)
Lemma init_again s sch :
  schema_vec_ (this s) !! 0 = Some sch ->
  is_Some (schema_map_ (this s) !! measurement_name_ sch) ->
  init s
  = Some (E_INVALID_ARG,
          {| this := with_schema_map_ (schema_map_ (this s))
                       (with_timestamps_ (Some (length (mem s))) (this s));
             mem := mem s ++ [Some (Int64Array (replicate (Z.to_nat (max_row_num_ (this s)))
                                                          None))] |}).
Proof.
  intros Hsch Hin. apply lookup_lt_Some in Hsch as Hlen.
  destruct (length (schema_vec_ (this s))) as [| n] eqn:Hn; [lia |].
  unfold init. unfold bind at 1, get_this. simpl. rewrite ASSERT_bind.
  unfold bind at 1, malloc. simpl.
  unfold bind at 1, modify_this. simpl.
  unfold bind at 1. rewrite Hn, for_range_S.
  by rewrite (init_insert_present _ _ 0 sch).
Qed.

(** X14: [init] is not repeatable: on an initialised tablet with at least one
    column a second [init] returns [E_INVALID_ARG], because every name is in
    [schema_map_] already; it has by then replaced [timestamps_] by a new
    array, and the previous timestamp array stays allocated with no pointer
    of the tablet left to it. *)
Theorem init_twice_leaks_timestamps s sch :
  tablet_ok s ->
  schema_vec_ (this s) !! 0 = Some sch ->
  exists s' p,
    init s = Some (E_INVALID_ARG, s') /\
    timestamps_ (this s) = Some p /\
    timestamps_ (this s') = Some (length (mem s)) /\
    is_Some (block_at (mem s') (length (mem s))) /\
    block_at (mem s') p = block_at (mem s) p /\ is_Some (block_at (mem s') p) /\
    ~ owns s' p.
Proof.
  intros Hok Hsch.
  destruct (ok_timestamps s Hok) as (p & ts & Hp & Hts & _).
  destruct (ok_matrix s Hok) as (vm & ptrs & Hvm & Hptrs & Hlen & _ & Hcols).
  destruct (ok_bitmaps s Hok) as (bm & bs & Hbm & Hbs & _).
  apply block_at_lt in Hts as Hplt. apply block_at_lt in Hptrs as Hvmlt.
  assert (is_Some (schema_map_ (this s) !! measurement_name_ sch)) as Hin.
  { exists (Z.of_nat 0). apply (ok_map s Hok). by exists 0, sch. }
  eexists _, p. split; [by apply init_again with sch |]. simpl.
  split; [done |]. split; [done |].
  split; [rewrite block_at_middle; by eexists |].
  assert (block_at (mem s ++ [Some (Int64Array (replicate (Z.to_nat (max_row_num_ (this s)))
                                                          None))]) p
          = block_at (mem s) p) as Hsame by by apply block_at_app_l.
  split; [done |]. split; [rewrite Hsame, Hts; by eexists |].
  unfold owns. simpl. rewrite Hvm, Hbm.
  intros [[= Heq] | [[= ->] | [[= ->] | (vm' & ptrs' & c & [= <-] & Hptrs' & Hc)]]];
    [lia | congruence | congruence |].
  rewrite block_at_app_l in Hptrs' by done.
  assert (ptrs' = ptrs) as -> by congruence.
  apply lookup_lt_Some in Hc as Hclt.
  destruct (Hcols c) as (pc & a & Hpc & Ha & _); [lia |]. congruence.
Qed.

Lemma init_twice_leaks_timestamps_witness :
  tablet_ok tablet_t1 /\
  schema_vec_ (this tablet_t1) !! 0 = Some {| measurement_name_ := "t1"; data_type_ := INT64 |} /\
  exists s' p,
    init tablet_t1 = Some (E_INVALID_ARG, s') /\
    timestamps_ (this tablet_t1) = Some p /\
    timestamps_ (this s') = Some (length (mem tablet_t1)) /\
    is_Some (block_at (mem s') (length (mem tablet_t1))) /\
    block_at (mem s') p = block_at (mem tablet_t1) p /\ is_Some (block_at (mem s') p) /\
    ~ owns s' p.
Proof.
  split; [apply tablet_t1_ok |]. split; [reflexivity |].
  apply (init_twice_leaks_timestamps tablet_t1
           {| measurement_name_ := "t1"; data_type_ := INT64 |}).
  - apply tablet_t1_ok.
  - reflexivity.
Defined.

(** X15: [destroy] keeps [schema_map_] as it is, so a destroyed tablet
    cannot be initialised again: on an initialised tablet with at least one
    column, [destroy] followed by [init] returns [E_INVALID_ARG]. *)
Theorem destroy_then_init_fails s sch :
  tablet_ok s ->
  schema_vec_ (this s) !! 0 = Some sch ->
  exists s1 s2,
    destroy s = Some (tt, s1) /\
    schema_map_ (this s1) = schema_map_ (this s) /\
    init s1 = Some (E_INVALID_ARG, s2).
Proof.
  intros Hok Hsch.
  destruct (destroy_ok s Hok) as (h' & p & vm & bm & Hrun & _).
  assert (is_Some (schema_map_ (this s) !! measurement_name_ sch)) as Hin.
  { exists (Z.of_nat 0). apply (ok_map s Hok). by exists 0, sch. }
  eexists _, _. split; [exact Hrun |]. split; [done |].
  by apply init_again with sch.
Qed.

Lemma destroy_then_init_fails_witness :
  tablet_ok tablet_t1 /\
  schema_vec_ (this tablet_t1) !! 0 = Some {| measurement_name_ := "t1"; data_type_ := INT64 |} /\
  exists s1 s2,
    destroy tablet_t1 = Some (tt, s1) /\
    schema_map_ (this s1) = schema_map_ (this tablet_t1) /\
    init s1 = Some (E_INVALID_ARG, s2).
Proof.
  split; [apply tablet_t1_ok |]. split; [reflexivity |].
  apply (destroy_then_init_fails tablet_t1
           {| measurement_name_ := "t1"; data_type_ := INT64 |}).
  - apply tablet_t1_ok.
  - reflexivity.
Defined.

(** ** The name index *)

(** X16: after a successful [init] of a new tablet, [schema_map_] is the
    schema read backwards: it has as many entries as the schema has columns
    (what the assertion after the first loop states), the name of the column
    at an index maps to that index, and every key is the name of a column. *)
Theorem init_name_index schema_vec max_rows h :
  (Z.of_nat (length schema_vec) < 2 ^ 31)%Z ->
  NoDup (names schema_vec) ->
  exists s',
    init {| this := new_Tablet schema_vec max_rows; mem := h |} = Some (E_OK, s') /\
    size (schema_map_ (this s')) = length schema_vec /\
    (forall c sch, schema_vec !! c = Some sch ->
                   schema_map_ (this s') !! measurement_name_ sch = Some (Z.of_nat c)) /\
    (forall name z, schema_map_ (this s') !! name = Some z ->
                    exists c sch, schema_vec !! c = Some sch /\
                                  measurement_name_ sch = name /\ z = Z.of_nat c).
Proof.
  intros Hcount Hnd.
  destruct (init_new_ok schema_vec max_rows h Hnd) as (m & Hinit & Hm).
  eexists. split; [exact Hinit |]. simpl. split; [| split].
  - rewrite <- size_dom.
    assert (dom m = list_to_set (names schema_vec)) as ->.
    { apply set_eq. intros name. rewrite elem_of_dom, elem_of_list_to_set.
      unfold names. rewrite list_elem_of_fmap. split.
      - intros [z Hz]. apply Hm in Hz as (i & sch & _ & Hsch & Hn & _).
        exists sch. split; [done |]. by eapply list_elem_of_lookup_2.
      - intros (sch & -> & Hin). apply list_elem_of_lookup in Hin as [i Hi].
        eexists. apply Hm. exists i, sch. split; [by eapply lookup_lt_Some |]. done. }
    rewrite size_list_to_set by done. unfold names. by rewrite length_fmap.
  - intros c sch Hsch. apply lookup_lt_Some in Hsch as Hc. apply Hm.
    exists c, sch. split; [done |]. split; [done |]. split; [done |].
    by rewrite to_int32_small by lia.
  - intros name z Hz. apply Hm in Hz as (i & sch & Hi & Hsch & Hn & ->).
    exists i, sch. split; [done |]. split; [done |]. by rewrite to_int32_small by lia.
Qed.

Lemma init_name_index_witness :
  (Z.of_nat (length schema_t1) < 2 ^ 31)%Z /\ NoDup (names schema_t1) /\
  exists s',
    init fresh_t1 = Some (E_OK, s') /\
    size (schema_map_ (this s')) = length schema_t1 /\
    (forall c sch, schema_t1 !! c = Some sch ->
                   schema_map_ (this s') !! measurement_name_ sch = Some (Z.of_nat c)) /\
    (forall name z, schema_map_ (this s') !! name = Some z ->
                    exists c sch, schema_t1 !! c = Some sch /\
                                  measurement_name_ sch = name /\ z = Z.of_nat c).
Proof.
  split; [simpl; lia |]. split; [apply schema_t1_NoDup |].
  apply (init_name_index schema_t1 2 []).
  - simpl. lia.
  - apply schema_t1_NoDup.
Defined.

(** ** Error codes *)

Lemma add_value_out_of_range_only s row col val s' :
  add_value row col val s = Some (E_OUT_OF_RANGE, s') -> column_count s <= col.
Proof.
  intros Hrun. unfold column_count.
  destruct (decide (length (schema_vec_ (this s)) <= col)) as [Hcol | Hcol]; [done |].
  destruct (lookup_lt_is_Some_2 (schema_vec_ (this s)) col) as [sch Hsch]; [lia |].
  destruct (decide (GetDataTypeFromTemplateType val = data_type_ sch)) as [Hty | Hty].
  - rewrite (add_value_type_match s row col val sch) in Hrun by done.
    by apply store_value_set_bit_inv in Hrun as [? _].
  - by rewrite (add_value_type_mismatch s row col val sch) in Hrun.
Qed.

(** X17: the error codes of the index form of [add_value] name their cause,
    in any state: it returns [E_OUT_OF_RANGE] only for a column index
    outside the schema, [E_TYPE_NOT_MATCH] only for a column of the schema
    whose declared type differs from the type of the value, and it never
    returns [E_INVALID_ARG]. *)
Theorem add_value_error_causes s row col val e s' :
  add_value row col val s = Some (e, s') ->
  (e = E_OUT_OF_RANGE <-> column_count s <= col) /\
  (e = E_TYPE_NOT_MATCH <->
   exists sch, schema_vec_ (this s) !! col = Some sch /\
               GetDataTypeFromTemplateType val <> data_type_ sch) /\
  e <> E_INVALID_ARG.
Proof.
  intros Hrun. unfold column_count.
  destruct (decide (length (schema_vec_ (this s)) <= col)) as [Hcol | Hcol].
  { rewrite add_value_out_of_range in Hrun by done. injection Hrun as <- <-.
    split; [done |]. split; [| done]. split; [done |].
    intros (sch & Hsch & _). apply lookup_lt_Some in Hsch. lia. }
  destruct (lookup_lt_is_Some_2 (schema_vec_ (this s)) col) as [sch Hsch]; [lia |].
  destruct (decide (GetDataTypeFromTemplateType val = data_type_ sch)) as [Hty | Hty].
  - rewrite (add_value_type_match s row col val sch) in Hrun by done.
    apply store_value_set_bit_inv in Hrun as [-> _].
    split; [split; [done | lia] |]. split; [| done]. split; [done |].
    intros (sch' & Hsch' & Hne). congruence.
  - rewrite (add_value_type_mismatch s row col val sch) in Hrun by done.
    injection Hrun as <- <-. split; [split; [done | lia] |]. split; [| done].
    split; [| done]. intros _. by exists sch.
Qed.

Lemma add_value_error_causes_witness :
  add_value 1 0 (VInt32 7) tablet_t1 = Some (E_TYPE_NOT_MATCH, tablet_t1) /\
  (E_TYPE_NOT_MATCH = E_OUT_OF_RANGE <-> column_count tablet_t1 <= 0) /\
  (E_TYPE_NOT_MATCH = E_TYPE_NOT_MATCH <->
   exists sch, schema_vec_ (this tablet_t1) !! 0 = Some sch /\
               GetDataTypeFromTemplateType (VInt32 7) <> data_type_ sch) /\
  E_TYPE_NOT_MATCH <> E_INVALID_ARG.
Proof.
  split; [vm_compute; reflexivity |].
  apply (add_value_error_causes tablet_t1 1 0 (VInt32 7) E_TYPE_NOT_MATCH tablet_t1).
  vm_compute. reflexivity.
Defined.

(** X18: on an initialised tablet the name form of [add_value] returns
    [E_INVALID_ARG] only for a name that no column has, and it never returns
    [E_OUT_OF_RANGE]: the index it hands to the index form is always within
    the schema. *)
Theorem add_value_by_name_error_causes s row name val e s' :
  tablet_ok s ->
  add_value_by_name row name val s = Some (e, s') ->
  (e = E_INVALID_ARG <-> name ∉ names (schema_vec_ (this s))) /\
  e <> E_OUT_OF_RANGE.
Proof.
  intros Hok Hrun.
  apply add_value_by_name_inv in Hrun as [(-> & -> & Hname) | (second & Hname & Hrun)].
  - split; [| done]. split; [| done]. intros _ Hin. unfold names in Hin.
    apply list_elem_of_fmap in Hin as (sch & -> & Hin).
    apply list_elem_of_lookup in Hin as [c Hc].
    assert (schema_map_ (this s) !! measurement_name_ sch = Some (Z.of_nat c)) as Hsome
      by (apply (ok_map s Hok); by exists c, sch).
    congruence.
  - apply (ok_map s Hok) in Hname as (c & sch & Hsch & Hn & ->).
    pose proof (ok_count s Hok) as Hcount. unfold column_count in Hcount.
    apply lookup_lt_Some in Hsch as Hc.
    rewrite to_uint32_small, Nat2Z.id in Hrun by lia.
    assert (name ∈ names (schema_vec_ (this s))) as Hin.
    { unfold names. apply list_elem_of_fmap. exists sch.
      split; [done |]. by eapply list_elem_of_lookup_2. }
    split.
    + split; [| done]. intros ->.
      destruct (decide (GetDataTypeFromTemplateType val = data_type_ sch)) as [Hty | Hty].
      * rewrite (add_value_type_match s row c val sch) in Hrun by done.
        by apply store_value_set_bit_inv in Hrun as [? _].
      * by rewrite (add_value_type_mismatch s row c val sch) in Hrun.
    + intros ->. apply add_value_out_of_range_only in Hrun.
      unfold column_count in Hrun. lia.
Qed.

Lemma add_value_by_name_error_causes_witness :
  tablet_ok tablet_t1 /\
  add_value_by_name 0 "t2" (VInt64 42) tablet_t1 = Some (E_INVALID_ARG, tablet_t1) /\
  (E_INVALID_ARG = E_INVALID_ARG <-> "t2" ∉ names (schema_vec_ (this tablet_t1))) /\
  E_INVALID_ARG <> E_OUT_OF_RANGE.
Proof.
  split; [apply tablet_t1_ok |]. split; [vm_compute; reflexivity |].
  apply (add_value_by_name_error_causes tablet_t1 0 "t2" (VInt64 42) E_INVALID_ARG tablet_t1).
  - apply tablet_t1_ok.
  - vm_compute. reflexivity.
Defined.

(** ** Bits and cells *)

Lemma init_bits_clear schema_vec max_rows h m r c :
  bit_of {| this := init_tablet schema_vec max_rows h m;
            mem := init_heap schema_vec max_rows h |} r c <> Some true.
Proof.
  unfold bit_of, bitmap_of. simpl. rewrite init_heap_bitmaps. simpl.
  destruct (replicate (length schema_vec) (replicate (Z.to_nat max_rows) false) !! c)
    as [b |] eqn:Hb; [| done].
  apply lookup_replicate in Hb as [-> _]. simpl.
  destruct (replicate (Z.to_nat max_rows) false !! r) as [x |] eqn:Hx; [| done].
  apply lookup_replicate in Hx as [-> _]. done.
Qed.

(** X19: a set bit vouches for its cell.  After a successful [init] of a new
    tablet every cell whose bit is set holds a value of the column's
    declared type (no bit is set yet); and if that is so on an initialised
    tablet, it is so again after any return of [add_timestamp] or of either
    form of [add_value]. *)
Theorem set_bits_guard_typed_cells schema_vec max_rows h s0 s row col name timestamp val e s' :
  (init {| this := new_Tablet schema_vec max_rows; mem := h |} = Some (E_OK, s0) ->
   cells_typed s0) /\
  (tablet_ok s ->
   cells_typed s ->
   add_timestamp row timestamp s = Some (e, s') \/
   add_value row col val s = Some (e, s') \/
   add_value_by_name row name val s = Some (e, s') ->
   cells_typed s').
Proof.
  split.
  { intros Hinit. destruct (decide (NoDup (names schema_vec))) as [Hnd | Hdup].
    - destruct (init_new_ok schema_vec max_rows h Hnd) as (m & Hrun & _).
      rewrite Hrun in Hinit. injection Hinit as <-.
      intros r c Hbit. by apply init_bits_clear in Hbit.
    - destruct (init_new_dup schema_vec max_rows h Hdup) as (m & k & sch & Hrun & _).
      rewrite Hrun in Hinit. discriminate. }
  intros Hok Htyped.
  assert (forall col', add_value row col' val s = Some (e, s') -> cells_typed s') as Hval.
  { intros col' Hrun.
    destruct (decide (column_count s <= col')) as [Hcol | Hcol].
    { rewrite add_value_out_of_range in Hrun by done. by injection Hrun as _ <-. }
    destruct (lookup_lt_is_Some_2 (schema_vec_ (this s)) col') as [sch Hsch];
      [unfold column_count in Hcol; lia |].
    destruct (decide (GetDataTypeFromTemplateType val = data_type_ sch)) as [Hty | Hty];
      [| rewrite (add_value_type_mismatch s row col' val sch) in Hrun by done;
         by injection Hrun as _ <-].
    destruct (decide (row < capacity s)) as [Hrow | Hrow];
      [| rewrite (add_value_row_out_of_range s row col' val sch) in Hrun by (done || lia);
         discriminate].
    destruct (add_value_written s row col' val sch)
      as (s1 & Hrun1 & Hthis & _ & Hcell & _ & _ & Hframe); [done ..|].
    rewrite Hrun1 in Hrun. injection Hrun as _ <-.
    intros r c Hbit. destruct (decide ((r, c) = (row, col'))) as [[= -> ->] | Hne].
    - exists val, sch. rewrite Hthis. done.
    - destruct (Hframe r c Hne) as [Hc Hb]. rewrite Hb in Hbit. rewrite Hc, Hthis.
      by apply Htyped. }
  intros [Hrun | [Hrun | Hrun]].
  - apply add_timestamp_inv in Hrun as [[_ ->] | (_ & p & a & _ & Ha & _ & ->)]; [done |].
    intros r c Hbit. rewrite (bit_of_store_timestamps s p a) in Hbit by done.
    rewrite (cell_of_store_timestamps s p a) by done. simpl. by apply Htyped.
  - by eapply Hval.
  - apply add_value_by_name_inv in Hrun as [(_ & -> & _) | (second & _ & Hrun)]; [done |].
    by eapply Hval.
Qed.

Lemma set_bits_guard_typed_cells_witness :
  init fresh_t1 = Some (E_OK, tablet_t1) /\
  tablet_ok tablet_t1 /\ cells_typed tablet_t1 /\
  (add_timestamp 0 1000 tablet_t1 = Some (E_OK, tablet_t1_42) \/
   add_value 0 0 (VInt64 42) tablet_t1 = Some (E_OK, tablet_t1_42) \/
   add_value_by_name 0 "t1" (VInt64 42) tablet_t1 = Some (E_OK, tablet_t1_42)) /\
  cells_typed tablet_t1_42.
Proof.
  destruct (set_bits_guard_typed_cells schema_t1 2 [] tablet_t1 tablet_t1 0 0 "t1" 1000
              (VInt64 42) E_OK tablet_t1_42) as [Hinit Hwrite].
  assert (add_value 0 0 (VInt64 42) tablet_t1 = Some (E_OK, tablet_t1_42)) as Hrun
    by (vm_compute; reflexivity).
  split; [apply init_fresh_t1 |]. split; [apply tablet_t1_ok |].
  split; [apply Hinit, init_fresh_t1 |].
  split; [right; left; exact Hrun |].
  apply Hwrite.
  - apply tablet_t1_ok.
  - apply Hinit, init_fresh_t1.
  - right. left. exact Hrun.
Defined.

(** ** Writes without storage *)

(** X20: the writes rely on [init] having run.  On a tablet whose
    [timestamps_] and [value_matrix_] are null, as before [init] and again
    after [destroy], [add_timestamp] with a row index that passes the bounds
    check stores through the null pointer, and [add_value] with a column
    index and a value that pass the checks indexes the null pointer: both
    are undefined. *)
Theorem write_without_storage s row col val sch timestamp :
  timestamps_ (this s) = None ->
  value_matrix_ (this s) = None ->
  ((Z.of_nat row < to_uint32 (max_row_num_ (this s)))%Z ->
   add_timestamp row timestamp s = None) /\
  (schema_vec_ (this s) !! col = Some sch ->
   GetDataTypeFromTemplateType val = data_type_ sch ->
   add_value row col val s = None).
Proof.
  intros Hts Hvm. split.
  - intros Hrow. unfold add_timestamp. unfold bind at 1, get_this. simpl.
    rewrite ASSERT_bind. unfold UNLIKELY. rewrite bool_decide_eq_false_2 by lia.
    unfold bind, deref. by rewrite Hts.
  - intros Hsch Hty. rewrite (add_value_type_match s row col val sch) by done.
    unfold bind at 1, store_value, bind at 1, get_this. simpl.
    unfold bind at 1, deref at 1. by rewrite Hvm.
Qed.

Lemma write_without_storage_witness :
  timestamps_ (this fresh_t1) = None /\ value_matrix_ (this fresh_t1) = None /\
  (Z.of_nat 0 < to_uint32 (max_row_num_ (this fresh_t1)))%Z /\
  add_timestamp 0 1000 fresh_t1 = None /\
  schema_vec_ (this fresh_t1) !! 0
  = Some {| measurement_name_ := "t1"; data_type_ := INT64 |} /\
  GetDataTypeFromTemplateType (VInt64 42) = INT64 /\
  add_value 0 0 (VInt64 42) fresh_t1 = None.
Proof.
  destruct (write_without_storage fresh_t1 0 0 (VInt64 42)
              {| measurement_name_ := "t1"; data_type_ := INT64 |} 1000) as [Hts Hval];
    [reflexivity | reflexivity |].
  split; [reflexivity |]. split; [reflexivity |]. split; [vm_compute; reflexivity |].
  split; [apply Hts; vm_compute; reflexivity |].
  split; [reflexivity |]. split; [reflexivity |].
  apply Hval; reflexivity.
Defined.
